(** * The threat-pattern security engine of CORE (backend/src/security-engine.js)

    A shallow embedding of [loadThreats], [scanMoveSource],
    [performComprehensiveSecurityScan], [analyzeEconomicSecurity] and
    [analyzeMEVRisks], and of the server's [extractCode] and handlers of
    /api/analyze and /api/security-audit, followed by the properties of the
    engine's specification and by further properties of the code.

    Conventions of the embedding.
    - A JavaScript string is a sequence of UTF-16 code units.  The model keeps
      the code units below 256 and writes them as [ascii]; every literal of
      the engine lives in that range.
    - Array lengths, indices and counters are [nat]; the score, which
      subtracts, is computed in [Z].
    - The one floating-point operation of the engine,
      [callPattern.length * 0.7], is modelled exactly (binary64, round to
      nearest, ties to even) in module [Binary64]. *)

From Stdlib Require Import String Ascii List Bool Arith ZArith Lia.
From Stdlib Require Import PrimFloat Uint63 SpecFloat FloatOps.
From Stdlib Require Import Sorted Permutation.
Import ListNotations.

Set Warnings "-inexact-float".

Local Open Scope string_scope.
Local Open Scope list_scope.

(** ** JavaScript string primitives *)

Module JS.

(** [s.startsWith(p)] *)
Fixpoint startsWith (s p : string) : bool :=
  match p with
  | EmptyString => true
  | String c p' =>
      match s with
      | EmptyString => false
      | String d s' => Ascii.eqb c d && startsWith s' p'
      end
  end.

(** [s.includes(sub)]: [sub] occurs at some position of [s]. *)
Fixpoint includes (s sub : string) : bool :=
  startsWith s sub ||
  match s with
  | EmptyString => false
  | String _ s' => includes s' sub
  end.

(** The code units [String.prototype.trim] strips: TAB, LF, VT, FF, CR,
    SPACE and NBSP (the white space and line terminators below 256). *)
Definition isWhiteSpace (c : ascii) : bool :=
  let n := nat_of_ascii c in
  ((9 <=? n)%nat && (n <=? 13)%nat) || (n =? 32)%nat || (n =? 160)%nat.

Fixpoint trimStart (s : string) : string :=
  match s with
  | EmptyString => EmptyString
  | String c s' => if isWhiteSpace c then trimStart s' else s
  end.

Fixpoint trimEnd (s : string) : string :=
  match s with
  | EmptyString => EmptyString
  | String c s' =>
      match trimEnd s' with
      | EmptyString => if isWhiteSpace c then EmptyString else String c EmptyString
      | t => String c t
      end
  end.

(** [s.trim()] *)
Definition trim (s : string) : string := trimEnd (trimStart s).

Definition LF : ascii := ascii_of_nat 10.

(** [s.split('\n')]: never empty, [''.split('\n')] is [['']]. *)
Fixpoint split_lines (s : string) : list string :=
  match s with
  | EmptyString => [EmptyString]
  | String c s' =>
      if Ascii.eqb c LF then EmptyString :: split_lines s'
      else match split_lines s' with
           | [] => [String c EmptyString]
           | ln :: rest => String c ln :: rest
           end
  end.

(** [xs.join(sep)] *)
Fixpoint join (sep : string) (xs : list string) : string :=
  match xs with
  | [] => EmptyString
  | [x] => x
  | x :: rest => x ++ sep ++ join sep rest
  end.

(** [xs.slice(a, b)] for [0 <= a] and [0 <= b <= xs.length]. *)
Definition slice {A : Type} (xs : list A) (a b : nat) : list A :=
  firstn (b - a) (skipn a xs).

(** [s.replace(pat, '')] with a string pattern: only the first occurrence of
    [pat] is removed.  Specialised to a one-character pattern. *)
Fixpoint replace_first (c : ascii) (s : string) : string :=
  match s with
  | EmptyString => EmptyString
  | String d s' => if Ascii.eqb d c then s' else String d (replace_first c s')
  end.

(** A string used as a condition: [''] is falsy. *)
Definition truthy (s : string) : bool :=
  match s with EmptyString => false | _ => true end.

(** [x || dflt] for an optional string field. *)
Definition or_default (x : option string) (dflt : string) : string :=
  match x with
  | Some s => if truthy s then s else dflt
  | None => dflt
  end.

End JS.

(** ** Data model *)

(** [t.pattern] of a catalog rule; each key may be absent. *)
Module Pattern.
Record t : Type := mk {
  function_name : option string;
  function_calls : option (list string);
  missing_checks : option (list string)
}.
End Pattern.

(** One entry of [threats.json].  ([fix_] is the field [fix], a reserved
    word here.) *)
Module Threat.
Record t : Type := mk {
  id : string;
  severity : string;
  pattern : option Pattern.t;
  recommendation : string;
  fix_ : string;
  exploit_example : option string;
  cve_reference : option string
}.
End Threat.

(** The [line] field of a finding: a number, or a string. *)
Inductive LineRef : Type :=
| LineNumber (n : nat)
| LineText (s : string).

(** An object pushed on [results]. *)
Module Finding.
Record t : Type := mk {
  id : string;
  severity : string;
  line : LineRef;
  function : string;
  snippet : string;
  missing_checks : list string;
  recommendation : string;
  fix_ : string;
  exploit_example : string;
  cve_reference : string
}.
End Finding.

(** ** scanMoveSource *)

(** The predicate of the [filter] on line 17, negated: the line is dropped. *)
Definition is_comment_line (ln : string) : bool :=
  negb (negb (JS.startsWith (JS.trim ln) "//") &&
        negb (JS.startsWith (JS.trim ln) "///")).

(** [source.split('\n').filter(...)] *)
Definition source_lines (source : string) : list string :=
  filter (fun ln => negb (JS.startsWith (JS.trim ln) "//") &&
                    negb (JS.startsWith (JS.trim ln) "///"))
         (JS.split_lines source).

(** The context window of the match at index [idx]. *)
Definition context (lines : list string) (idx : nat) : string :=
  JS.join (String JS.LF "")
    (JS.slice lines (Nat.max 0 (idx - 5)) (Nat.min (List.length lines) (idx + 10))).

(** The four [if]s of the body of [missing_checks.forEach] (lines 30-41):
    what one entry [mc] pushes on [missing]. *)
Definition line_check (ctx mc : string) : list string :=
  (if String.eqb mc "signer_check"
      && negb (JS.includes ctx "tx_context::sender")
      && negb (JS.includes ctx "signer::")
   then ["signer_check"] else []) ++
  (if String.eqb mc "max_supply_check"
      && negb (JS.includes ctx "MAX_SUPPLY")
      && negb (JS.includes ctx "total_supply")
   then ["max_supply_check"] else []) ++
  (if String.eqb mc "reentrancy_guard"
      && negb (JS.includes ctx "reentrancy_guard")
      && negb (JS.includes ctx "ReentrancyGuard")
   then ["reentrancy_guard"] else []) ++
  (if String.eqb mc "type_verification"
      && negb (JS.includes ctx "assert!")
      && negb (JS.includes ctx "dynamic_field::exists_with_type")
   then ["type_verification"] else []).

(** [missing] after the loop of lines 28-43. *)
Definition line_missing (p : Pattern.t) (ctx : string) : list string :=
  match Pattern.missing_checks p with
  | Some mcs => flat_map (line_check ctx) mcs
  | None => []
  end.

(** The body of [lines.forEach((ln, idx) => ...)] (lines 25-58). *)
Definition match_line (t : Threat.t) (p : Pattern.t) (fname : string)
    (lines : list string) (ln : string) (idx : nat) : list Finding.t :=
  if JS.includes ln fname then
    let missing := line_missing p (context lines idx) in
    if (0 <? List.length missing)%nat then
      [ Finding.mk (Threat.id t) (Threat.severity t) (LineNumber (idx + 1))
          fname (JS.trim ln) missing
          (Threat.recommendation t) (Threat.fix_ t)
          (JS.or_default (Threat.exploit_example t) "Unknown")
          (JS.or_default (Threat.cve_reference t) "None") ]
    else []
  else [].

(** [lines.forEach] from index [idx] on, over the remaining lines [rest]. *)
Fixpoint forEach_line (t : Threat.t) (p : Pattern.t) (fname : string)
    (lines rest : list string) (idx : nat) : list Finding.t :=
  match rest with
  | [] => []
  | ln :: rest' =>
      match_line t p fname lines ln idx
        ++ forEach_line t p fname lines rest' (S idx)
  end.

(** The function-keyed branch (lines 22-60). *)
Definition function_findings (t : Threat.t) (lines : list string)
    : list Finding.t :=
  match Threat.pattern t with
  | Some p =>
      match Pattern.function_name p with
      | Some fname =>
          if JS.truthy fname then forEach_line t p fname lines lines 0 else []
      | None => []
      end
  | None => []
  end.

(** [foundCalls] after the loop of lines 67-71. *)
Definition foundCalls (source : string) (callPattern : list string) : nat :=
  List.length (filter (fun call => JS.includes source call) callPattern).

(** What one entry [check] pushes on [missingChecks] (line 77). *)
Definition flow_check (source check : string) : list string :=
  if negb (JS.includes source (JS.replace_first "_"%char check))
     && negb (JS.includes source check)
  then [check] else [].

(** [missingChecks] after the loop of lines 75-81. *)
Definition flow_missing (p : Pattern.t) (source : string) : list string :=
  match Pattern.missing_checks p with
  | Some mcs => flat_map (flow_check source) mcs
  | None => []
  end.

(** ** The 70% threshold: [foundCalls >= callPattern.length * 0.7]

    Both operands are Numbers (binary64).  [callPattern.length] and
    [foundCalls] are integers below [2^53], hence exact; the literal [0.7] is
    the double [mant_0_7 * 2^-53]; the product is the exact product rounded to
    53 significant bits, ties to even.  Values are kept as integer multiples
    of [2^-53]. *)

Module Binary64.
Local Open Scope Z_scope.

(** The literal [0.7]: 0x3FE6666666666666. *)
Definition mant_0_7 : Z := 6305039478318694.

(** Round the non-negative integer [P] to 53 significant bits, to nearest,
    ties to even: [d] low bits are dropped. *)
Definition round53 (P : Z) : Z :=
  let d := Z.log2 P - 52 in
  if d <=? 0 then P
  else
    let q := P / 2 ^ d in
    let r := P mod 2 ^ d in
    let half := 2 ^ (d - 1) in
    let q' := if r <? half then q
              else if half <? r then q + 1
              else if Z.even q then q else q + 1 in
    q' * 2 ^ d.

(** [N * 0.7] for an integer [0 <= N < 2^53], in units of [2^-53]. *)
Definition mul_0_7 (N : Z) : Z := round53 (N * mant_0_7).

(** [F >= N * 0.7] for integers [F] and [N]. *)
Definition ge_mul_0_7 (F N : Z) : bool := mul_0_7 N <=? F * 2 ^ 53.

(** [found >= n * 0.7] for a counter and an array length. *)
Definition ge_times_0_7 (found n : nat) : bool :=
  ge_mul_0_7 (Z.of_nat found) (Z.of_nat n).

(** The same comparison on the primitive binary64 numbers of the kernel. *)
Definition ge_mul_0_7_prim (F N : Z) : bool :=
  PrimFloat.leb
    (PrimFloat.mul (PrimFloat.of_uint63 (Uint63.of_Z N)) 0.7%float)
    (PrimFloat.of_uint63 (Uint63.of_Z F)).

End Binary64.

(** The condition of line 73, [foundCalls >= callPattern.length * 0.7]. *)
Definition activated (source : string) (callPattern : list string) : bool :=
  Binary64.ge_times_0_7 (foundCalls source callPattern)
                        (List.length callPattern).

(** The call-flow branch (lines 63-98). *)
Definition call_flow_findings (t : Threat.t) (source : string)
    : list Finding.t :=
  match Threat.pattern t with
  | Some p =>
      match Pattern.function_calls p with
      | Some callPattern =>
          if activated source callPattern then
            let missingChecks := flow_missing p source in
            if (0 <? List.length missingChecks)%nat then
              [ Finding.mk (Threat.id t) (Threat.severity t)
                  (LineText "Multiple") "Call Pattern"
                  (JS.join " + " callPattern) missingChecks
                  (Threat.recommendation t) (Threat.fix_ t)
                  (JS.or_default (Threat.exploit_example t) "Unknown")
                  (JS.or_default (Threat.cve_reference t) "None") ]
            else []
          else []
      | None => []
      end
  | None => []
  end.

(** The body of [scanMoveSource] once the catalog is loaded:
    [threats.forEach] pushes, per rule, the function-keyed findings and then
    the call-flow finding. *)
Definition scan (threats : list Threat.t) (source : string)
    : list Finding.t :=
  let lines := source_lines source in
  flat_map (fun t => function_findings t lines ++ call_flow_findings t source)
           threats.

(** ** loadThreats and the entry points *)

(** A call either returns or throws. *)
Inductive outcome (A : Type) : Type :=
| Returned (a : A)
| Thrown (message : string).
Arguments Returned {A} a.
Arguments Thrown {A} message.

Definition bind {A B : Type} (m : outcome A) (k : A -> outcome B)
    : outcome B :=
  match m with
  | Returned a => k a
  | Thrown e => Thrown e
  end.

(** [try { body } catch (err) { handler }] *)
Definition try_catch {A : Type} (body : outcome A)
    (handler : string -> outcome A) : outcome A :=
  match body with
  | Returned a => Returned a
  | Thrown e => handler e
  end.

(** The parsed catalog document, [{ threats: [...] }]. *)
Record Document : Type := { threats : list Threat.t }.

(** What the engine asks of its runtime: the result of
    [fs.readFileSync(THREATS_PATH, 'utf8')] and [JSON.parse]. *)
Record Runtime : Type := {
  readFileSync : outcome string;
  JSON_parse : string -> outcome Document
}.

(** The handler also writes a line on the console, which no caller reads;
    the model leaves it out. *)
Definition loadThreats (rt : Runtime) : outcome Document :=
  try_catch (bind (readFileSync rt) (JSON_parse rt))
            (fun err => Returned {| threats := [] |}).

Definition scanMoveSource (rt : Runtime) (source : string)
    : outcome (list Finding.t) :=
  bind (loadThreats rt) (fun doc => Returned (scan (threats doc) source)).

Record SecurityReport : Type := {
  criticalIssues : nat;
  highIssues : nat;
  mediumIssues : nat;
  securityScore : Z;
  findings : list Finding.t;
  deployment_ready : bool;
  risk_level : string
}.

(** [findings.filter(f => f.severity === sev).length] *)
Definition count_severity (sev : string) (fs : list Finding.t) : nat :=
  List.length (filter (fun f => String.eqb (Finding.severity f) sev) fs).

(** [performComprehensiveSecurityScan] after its first line (lines 106-121). *)
Definition score (fs : list Finding.t) : SecurityReport :=
  let criticalIssues := count_severity "critical" fs in
  let highIssues := count_severity "high" fs in
  let mediumIssues := count_severity "medium" fs in
  let securityScore :=
    Z.max 0 (100 - Z.of_nat criticalIssues * 40 - Z.of_nat highIssues * 20
                 - Z.of_nat mediumIssues * 10)%Z in
  {| criticalIssues := criticalIssues;
     highIssues := highIssues;
     mediumIssues := mediumIssues;
     securityScore := securityScore;
     findings := fs;
     deployment_ready := (criticalIssues =? 0)%nat && (highIssues <=? 1)%nat;
     risk_level :=
       if (0 <? criticalIssues)%nat then "CRITICAL"
       else if (2 <? highIssues)%nat then "HIGH"
       else if (3 <? mediumIssues)%nat then "MEDIUM"
       else "LOW" |}.

Definition performComprehensiveSecurityScan (rt : Runtime) (code : string)
    : outcome SecurityReport :=
  bind (scanMoveSource rt code) (fun findings => Returned (score findings)).

(** ** analyzeEconomicSecurity *)

(** An entry of [risks], and the object the analyzer returns. *)
Module Economic.
Record Risk : Type := mkRisk {
  type : string;
  description : string;
  severity : string
}.
Record Report : Type := mk {
  risks : list Risk;
  risk_level : string
}.
End Economic.

Definition flash_loan_risk : Economic.Risk :=
  Economic.mkRisk "flash_loan_risk"
    "Potential flash loan manipulation vulnerability" "high".

Definition oracle_manipulation : Economic.Risk :=
  Economic.mkRisk "oracle_manipulation"
    "Price oracle dependency detected - ensure TWAP protection" "medium".

(** The two [if]s update the pair ([risks], [riskLevel]) in sequence. *)
Definition analyzeEconomicSecurity (source : string) : Economic.Report :=
  let st0 := ([] : list Economic.Risk, "LOW") in
  let st1 :=
    if JS.includes source "flash_" || JS.includes source "borrow"
    then (fst st0 ++ [flash_loan_risk], "HIGH")
    else st0 in
  let st2 :=
    if JS.includes source "price" || JS.includes source "oracle"
    then (fst st1 ++ [oracle_manipulation],
          if String.eqb (snd st1) "LOW" then "MEDIUM" else snd st1)
    else st1 in
  Economic.mk (fst st2) (snd st2).

(** ** analyzeMEVRisks *)

(** An entry of [risks], and the object the analyzer returns. *)
Module MEV.
Record Risk : Type := mkRisk {
  type : string;
  description : string;
  mitigation : string
}.
Record Report : Type := mk {
  risks : list Risk;
  mev_score : nat;
  risk_level : string
}.
End MEV.

Definition arbitrage_opportunity : MEV.Risk :=
  MEV.mkRisk "arbitrage_opportunity"
    "DEX interactions may create arbitrage opportunities"
    "Implement slippage protection and MEV-resistant ordering".

Definition frontrunning_risk : MEV.Risk :=
  MEV.mkRisk "frontrunning_risk"
    "Auction mechanism vulnerable to frontrunning"
    "Use commit-reveal schemes or time-locks".

(** The two [if]s update the pair ([mevRisks], [mevScore]) in sequence. *)
Definition analyzeMEVRisks (source : string) : MEV.Report :=
  let st0 := ([] : list MEV.Risk, 0) in
  let st1 :=
    if JS.includes source "swap" || JS.includes source "exchange"
    then (fst st0 ++ [arbitrage_opportunity], snd st0 + 30)
    else st0 in
  let st2 :=
    if JS.includes source "auction" || JS.includes source "bid"
    then (fst st1 ++ [frontrunning_risk], snd st1 + 40)
    else st1 in
  MEV.mk (fst st2) (snd st2)
    (if (50 <? snd st2)%nat then "HIGH"
     else if (20 <? snd st2)%nat then "MEDIUM" else "LOW").

(** ** The server: extractCode

    [text.match(/```(?:move)?\n([\s\S]*?)```/i)]: the leftmost position where
    a fence opens, optionally followed by [move] in any case, then a line
    feed, then the shortest text up to the next fence. *)

Module Fence.

Definition backtick : ascii := ascii_of_nat 96.

Definition fence : string :=
  String backtick (String backtick (String backtick EmptyString)).

(** [s.slice(n)] *)
Fixpoint drop (n : nat) (s : string) : string :=
  match n, s with
  | O, _ => s
  | S n', String _ s' => drop n' s'
  | S _, EmptyString => EmptyString
  end.

(** A letter of the pattern against a character of the text, under the [i]
    flag: the pattern is in lower case, the text may be in upper case. *)
Definition eqb_i (p c : ascii) : bool :=
  Ascii.eqb p c || (nat_of_ascii c + 32 =? nat_of_ascii p)%nat.

(** [s] starts with the lower-case letters [p], in any case. *)
Fixpoint startsWith_i (s p : string) : bool :=
  match p with
  | EmptyString => true
  | String c p' =>
      match s with
      | EmptyString => false
      | String d s' => eqb_i c d && startsWith_i s' p'
      end
  end.

(** [([\s\S]*?)```]: the text before the first fence of [s]. *)
Fixpoint capture (s : string) : option string :=
  if JS.startsWith s fence then Some EmptyString
  else match s with
       | EmptyString => None
       | String c s' => option_map (String c) (capture s')
       end.

(** [\n([\s\S]*?)```] *)
Definition after_tag (s : string) : option string :=
  match s with
  | String c s' => if Ascii.eqb c JS.LF then capture s' else None
  | EmptyString => None
  end.

(** The whole pattern at the start of [s]: the optional group is tried
    first, then skipped. *)
Definition match_here (s : string) : option string :=
  if JS.startsWith s fence then
    let r := drop 3 s in
    match (if startsWith_i r "move" then after_tag (drop 4 r) else None) with
    | Some c => Some c
    | None => after_tag r
    end
  else None.

(** The first group of the leftmost match. *)
Fixpoint match_group (s : string) : option string :=
  match match_here s with
  | Some c => Some c
  | None =>
      match s with
      | EmptyString => None
      | String _ s' => match_group s'
      end
  end.

End Fence.

Definition extractCode (text : string) : string :=
  match Fence.match_group text with
  | Some code => if JS.truthy code then JS.trim code else JS.trim text
  | None => JS.trim text
  end.

(** ** The server: handlers of /api/analyze and /api/security-audit *)

(** What the handlers ask of their runtime besides the engine's: the path
    [DEFAULT_MOVE_PATH], the result of reading that file, and the clock
    ([new Date().toISOString()]). *)
Record ServerRuntime : Type := {
  engine : Runtime;
  DEFAULT_MOVE_PATH : string;
  readDefaultMove : outcome string;
  toISOString : string
}.

(** [res.status(code).json(body)]; [res.json(body)] answers 200. *)
Record Response (Body : Type) : Type := {
  status : nat;
  body : Body
}.
Arguments status {Body} r.
Arguments body {Body} r.

(** The error body of a failed read of the default file. *)
Record ReadError : Type := {
  error : string;
  details : string
}.

(** The value of [req.body.move_source], which the handlers do not check: a
    string; a falsy value that is not a string (the key is absent, or holds
    null, false or 0); or a truthy value that is not a string (true, a
    non-zero number, an array, an object). *)
Inductive Posted : Type :=
| PostedString (s : string)
| PostedFalsy
| PostedTruthy.

(** The value the handlers pass to the engine as [source]. *)
Inductive SourceValue : Type :=
| SourceText (s : string)
| SourceOther.

(** The block both handlers start with (lines 323-335 and 359-371): the
    posted value when it is truthy, the text of the default file otherwise;
    [inr] is the 500 answer. *)
Definition requested_source (rt : ServerRuntime) (move_source : Posted)
    : (SourceValue * string) + Response ReadError :=
  let from_file :=
    match readDefaultMove rt with
    | Returned text => inl (SourceText text, DEFAULT_MOVE_PATH rt)
    | Thrown message =>
        inr {| status := 500;
               body := {| error := "Could not read file: "
                                   ++ DEFAULT_MOVE_PATH rt;
                          details := message |} |}
    end in
  match move_source with
  | PostedString src =>
      if JS.truthy src then inl (SourceText src, "raw_input") else from_file
  | PostedFalsy => from_file
  | PostedTruthy => inl (SourceOther, "raw_input")
  end.

(** [scanMoveSource(source)] on any value: a value that is not a string has
    no method [split], so that line 17, after the catalog is loaded on line
    16, throws a TypeError. *)
Definition scanMoveSource_value (rt : Runtime) (source : SourceValue)
    : outcome (list Finding.t) :=
  match source with
  | SourceText s => scanMoveSource rt s
  | SourceOther =>
      bind (loadThreats rt)
           (fun _ => Thrown "source.split is not a function")
  end.

(** [acc[k] = (acc[k] || 0) + 1] on an object used as a map from severity to
    count; the keys are kept in the order of their first insertion.  (The
    severities of the catalog are [critical], [high], [medium] and [low];
    none of them is the name of an inherited property.) *)
Fixpoint bump (acc : list (string * nat)) (k : string) : list (string * nat) :=
  match acc with
  | [] => [(k, 1)]
  | (k', n) :: rest =>
      if String.eqb k' k then (k', n + 1) :: rest else (k', n) :: bump rest k
  end.

(** [findings.reduce((acc, f) => ..., {})] *)
Definition by_severity (fs : list Finding.t) : list (string * nat) :=
  fold_left (fun acc f => bump acc (Finding.severity f)) fs [].

Record Summary : Type := {
  total_findings : nat;
  summary_by_severity : list (string * nat)
}.

(** The bodies /api/analyze answers with. *)
Inductive AnalyzeBody : Type :=
| AnalyzeNone (file reason : string)
| AnalyzeFound (file : string) (findings : list Finding.t) (summary : Summary)
| AnalyzeReadError (e : ReadError).

(** [ok] of each body. *)
Definition analyze_ok (b : AnalyzeBody) : bool :=
  match b with
  | AnalyzeFound _ _ _ => true
  | _ => false
  end.

(** The handler of POST /api/analyze (lines 322-355).  What the engine
    throws is not caught. *)
Definition api_analyze (rt : ServerRuntime) (move_source : Posted)
    : outcome (Response AnalyzeBody) :=
  match requested_source rt move_source with
  | inr r => Returned {| status := status r; body := AnalyzeReadError (body r) |}
  | inl (source, filePath) =>
      bind (scanMoveSource_value (engine rt) source) (fun findings =>
        if (List.length findings =? 0)%nat then
          Returned {| status := 200;
                      body := AnalyzeNone filePath
                                "No vulnerable patterns detected " |}
        else
          Returned {| status := 200;
                      body := AnalyzeFound filePath findings
                                {| total_findings := List.length findings;
                                   summary_by_severity := by_severity findings |}
                   |})
  end.

Record Recommendation : Type := {
  safe_to_deploy : bool;
  required_fixes : list Finding.t;
  optimization_suggestions : list Finding.t
}.

(** The bodies /api/security-audit answers with; [ok] is true for the
    report, false for the read error. *)
Inductive AuditBody : Type :=
| AuditReport (file timestamp : string) (security_analysis : SecurityReport)
    (economic_risks : Economic.Report) (mev_analysis : MEV.Report)
    (deployment_recommendation : Recommendation)
| AuditReadError (e : ReadError).

(** The report and the recommendation of lines 373-393, for a source that
    is a string. *)
Definition audit_report (rt : ServerRuntime) (source filePath : string)
    (comprehensiveAnalysis : SecurityReport) : Response AuditBody :=
  let economicRisks := analyzeEconomicSecurity source in
  let mevAnalysis := analyzeMEVRisks source in
  {| status := 200;
     body :=
       AuditReport filePath (toISOString rt) comprehensiveAnalysis
         economicRisks mevAnalysis
         {| safe_to_deploy :=
              deployment_ready comprehensiveAnalysis
              && negb (String.eqb (Economic.risk_level economicRisks) "HIGH");
            required_fixes :=
              filter (fun f => String.eqb (Finding.severity f) "critical")
                     (findings comprehensiveAnalysis);
            optimization_suggestions :=
              filter (fun f => String.eqb (Finding.severity f) "medium")
                     (findings comprehensiveAnalysis) |} |}.

(** The handler of POST /api/security-audit (lines 358-394).  What the
    engine throws is not caught; on a value that is not a string the first
    call, [performComprehensiveSecurityScan], already throws. *)
Definition api_security_audit (rt : ServerRuntime) (move_source : Posted)
    : outcome (Response AuditBody) :=
  match requested_source rt move_source with
  | inr r => Returned {| status := status r; body := AuditReadError (body r) |}
  | inl (SourceText source, filePath) =>
      bind (performComprehensiveSecurityScan (engine rt) source)
        (fun comprehensiveAnalysis =>
           Returned (audit_report rt source filePath comprehensiveAnalysis))
  | inl (SourceOther, filePath) =>
      bind (scanMoveSource_value (engine rt) SourceOther)
        (fun _ => Thrown "source.split is not a function")
  end.

(** ** Vocabulary of the properties *)

(** [ceil(0.7 * n)] *)
Definition ceil_70_percent (n : nat) : nat := (7 * n + 9) / 10.

(** The entries of [missing_checks], none when the key is absent. *)
Definition declared_checks (p : Pattern.t) : list string :=
  match Pattern.missing_checks p with
  | Some mcs => mcs
  | None => []
  end.

(** The call-flow matcher finds no textual trace of the name of [check]. *)
Definition flow_check_missing (source check : string) : Prop :=
  JS.includes source (JS.replace_first "_"%char check) = false
  /\ JS.includes source check = false.

(** [check] with every underscore removed, and the number of underscores. *)
Fixpoint strip_underscores (s : string) : string :=
  match s with
  | EmptyString => EmptyString
  | String c s' =>
      if Ascii.eqb c "_"%char then strip_underscores s'
      else String c (strip_underscores s')
  end.

Fixpoint underscores (s : string) : nat :=
  match s with
  | EmptyString => 0
  | String c s' => (if Ascii.eqb c "_"%char then 1 else 0) + underscores s'
  end.

(** The literal substrings the line matcher (lines 30-41) takes as evidence of
    a check kind. *)
Definition evidence (mc : string) : list string :=
  if String.eqb mc "signer_check" then ["tx_context::sender"; "signer::"]
  else if String.eqb mc "max_supply_check" then ["MAX_SUPPLY"; "total_supply"]
  else if String.eqb mc "reentrancy_guard"
       then ["reentrancy_guard"; "ReentrancyGuard"]
  else if String.eqb mc "type_verification"
       then ["assert!"; "dynamic_field::exists_with_type"]
  else [].

(** The presence rule of the call-flow matcher as the specification words it:
    a literal of the line matcher's rule, or the name with its underscores
    stripped, or the name. *)
Definition spec_flow_present (source check : string) : bool :=
  existsb (JS.includes source) (evidence check)
  || JS.includes source (strip_underscores check)
  || JS.includes source check.

(** A call-flow rule over one token, declaring the given checks. *)
Definition flow_rule (call : string) (checks : list string) : Threat.t :=
  Threat.mk "flashloan_price_oracle_exploit" "critical"
    (Some (Pattern.mk None (Some [call]) (Some checks)))
    "Use a time-weighted price" "Add an oracle update guard" None None.

(** The check kinds the line matcher evaluates. *)
Definition line_check_kinds : list string :=
  ["signer_check"; "max_supply_check"; "reentrancy_guard"; "type_verification"].

(** A string without line feed is one line. *)
Fixpoint no_LF (s : string) : bool :=
  match s with
  | EmptyString => true
  | String c s' => negb (Ascii.eqb c JS.LF) && no_LF s'
  end.

(** The function-keyed rule of the mint scenario. *)
Definition open_mint_function (severity recommendation fix_ : string)
    (exploit_example cve_reference : option string) : Threat.t :=
  Threat.mk "open_mint_function" severity
    (Some (Pattern.mk (Some "mint") None (Some ["signer_check"])))
    recommendation fix_ exploit_example cve_reference.

(** The context window as the specification words it: the 5 lines before
    through the 10 lines after the matched line. *)
Definition spec_context (lines : list string) (idx : nat) : string :=
  JS.join (String JS.LF "")
    (JS.slice lines (Nat.max 0 (idx - 5))
       (Nat.min (List.length lines) (idx + 10 + 1))).

(** A match on the first line, and the signer evidence ten lines below. *)
Definition far_evidence_source : string :=
  JS.join (String JS.LF "")
    ("public fun mint(account: &signer, amount: u64) {"
       :: repeat "  step();" 9
       ++ ["  let who = signer::address_of(account);"]).

(** A source whose third line matches, after two comment lines. *)
Definition commented_source : string :=
  JS.join (String JS.LF "")
    [ "// mint a coin";
      "/// anyone may call this";
      "public fun mint(amount: u64) {";
      "}" ].

(** The input of the mint scenario. *)
Definition mint_source : string :=
  "public fun mint(recipient: address, amount: u64, ctx: &mut TxContext) { let coin = coin::mint(amount); transfer::public_transfer(coin, recipient); }".

(** The same text laid out as in the test suite, one statement per line. *)
Definition mint_source_multiline : string :=
  JS.join (String JS.LF "")
    [ "";
      "        public fun mint(recipient: address, amount: u64, ctx: &mut TxContext) {";
      "          let coin = coin::mint(amount);";
      "          transfer::public_transfer(coin, recipient);";
      "        }";
      "      " ].

(** [risks.filter(r => r.type === ty).length] *)
Definition count_type (ty : string) (rs : list Economic.Risk) : nat :=
  List.length (filter (fun r => String.eqb (Economic.type r) ty) rs).

(** The first and last characters of a trimmed text are not white space. *)
Definition head_ok (s : string) : bool :=
  match s with
  | EmptyString => true
  | String c _ => negb (JS.isWhiteSpace c)
  end.

(** The number a finding reports, [0] for a text. *)
Definition line_number (f : Finding.t) : nat :=
  match Finding.line f with
  | LineNumber n => n
  | LineText _ => 0
  end.

(** The rank of a level. *)
Definition level_rank (level : string) : nat :=
  if String.eqb level "HIGH" then 2
  else if String.eqb level "MEDIUM" then 1 else 0.

(** [acc[k] || 0] *)
Fixpoint count_of (acc : list (string * nat)) (k : string) : nat :=
  match acc with
  | [] => 0
  | (k', n) :: rest => if String.eqb k' k then n else count_of rest k
  end.

(** The severities of the catalog. *)
Definition severities : list string := ["critical"; "high"; "medium"; "low"].

(** Neither a truthy value nor a non-empty string was posted. *)
Definition no_source (move_source : Posted) : Prop :=
  move_source = PostedFalsy \/ move_source = PostedString "".

(** The handler works on the text [source], named [file] in its answer: the
    non-empty string that was posted, or the text of the default file. *)
Definition analysed (rt : ServerRuntime) (move_source : Posted)
    (source file : string) : Prop :=
  (JS.truthy source = true /\ move_source = PostedString source
   /\ file = "raw_input")
  \/ (no_source move_source /\ readDefaultMove rt = Returned source
      /\ file = DEFAULT_MOVE_PATH rt).

(** The 500 answer of a failed read. *)
Definition read_error (rt : ServerRuntime) (message : string) : ReadError :=
  {| error := "Could not read file: " ++ DEFAULT_MOVE_PATH rt;
     details := message |}.

(** A text without backtick. *)
Fixpoint no_backtick (s : string) : bool :=
  match s with
  | EmptyString => true
  | String c s' => negb (Ascii.eqb c Fence.backtick) && no_backtick s'
  end.

(** The language tag the pattern accepts after the opening fence: none, or
    [move] in any case. *)
Definition move_tag (tag : string) : Prop :=
  tag = "" \/ (String.length tag = 4 /\ Fence.startsWith_i tag "move" = true).

(** The mint rule with its texts, and the finding it yields on
    [commented_source]. *)
Definition mint_rule : Threat.t :=
  open_mint_function "high" "Check the sender" "Assert the signer" None None.

Definition mint_finding : Finding.t :=
  Finding.mk "open_mint_function" "high" (LineNumber 1) "mint"
    "public fun mint(amount: u64) {" ["signer_check"]
    "Check the sender" "Assert the signer" "Unknown" "None".

(** A finding of the given severity. *)
Definition finding_of (severity : string) : Finding.t :=
  Finding.mk "rule" severity (LineText "Multiple") "Call Pattern" "a + b"
    ["signer_check"] "r" "f" "Unknown" "None".

(** * Properties *)

(** ** Scoring *)

Lemma count_severity_app (sev : string) (xs ys : list Finding.t) :
  count_severity sev (xs ++ ys) = count_severity sev xs + count_severity sev ys.
Proof.
  unfold count_severity. rewrite filter_app, length_app. reflexivity.
Qed.

Lemma count_severity_cons_other (sev : string) (f : Finding.t)
    (fs : list Finding.t) :
  Finding.severity f <> sev ->
  count_severity sev (f :: fs) = count_severity sev fs.
Proof.
  intros Hne. unfold count_severity. simpl.
  destruct (String.eqb_spec (Finding.severity f) sev); [contradiction | reflexivity].
Qed.

(** The counters are the numbers of occurrences of the severity. *)
Lemma count_severity_count_occ (sev : string) (fs : list Finding.t) :
  count_severity sev fs
  = count_occ string_dec (map Finding.severity fs) sev.
Proof.
  unfold count_severity. induction fs as [|f fs IH]; simpl; [reflexivity|].
  destruct (String.eqb_spec (Finding.severity f) sev) as [E|E];
    destruct (string_dec (Finding.severity f) sev); try contradiction;
    simpl; rewrite IH; reflexivity.
Qed.

(** A finding whose severity is none of the three counted ones leaves every
    counter, hence the whole verdict, unchanged. *)
Lemma score_skips_uncounted (f : Finding.t) (xs ys : list Finding.t) :
  Finding.severity f <> "critical" ->
  Finding.severity f <> "high" ->
  Finding.severity f <> "medium" ->
  securityScore (score (xs ++ f :: ys)) = securityScore (score (xs ++ ys))
  /\ risk_level (score (xs ++ f :: ys)) = risk_level (score (xs ++ ys))
  /\ deployment_ready (score (xs ++ f :: ys))
     = deployment_ready (score (xs ++ ys)).
Proof.
  intros Hc Hh Hm. unfold score; simpl.
  rewrite !count_severity_app, !count_severity_cons_other by assumption.
  auto.
Qed.

Lemma loadThreats_returns (rt : Runtime) :
  exists doc, loadThreats rt = Returned doc.
Proof.
  unfold loadThreats, try_catch, bind.
  destruct (readFileSync rt) as [txt|e]; [|eauto].
  destruct (JSON_parse rt txt); eauto.
Qed.

Lemma scanMoveSource_returns (rt : Runtime) (source : string) :
  exists fs, scanMoveSource rt source = Returned fs.
Proof.
  unfold scanMoveSource.
  destruct (loadThreats_returns rt) as [doc ->]. simpl. eauto.
Qed.

(** C1.  The report of the scorer: [securityScore] is
    [max(0, 100 - 40c - 20h - 10m)] over the numbers [c], [h], [m] of
    critical, high and medium findings, and lies in [0,100]; a low-severity
    finding changes nothing; [risk_level] is CRITICAL when [c > 0], else HIGH
    when [h > 2], else MEDIUM when [m > 3], else LOW; [deployment_ready]
    holds exactly when [c = 0] and [h <= 1]; the empty list is ready at level
    LOW; and [performComprehensiveSecurityScan] returns that report for the
    findings of [scanMoveSource]. *)
Theorem C1_score_report (fs : list Finding.t) :
  let c := count_occ string_dec (map Finding.severity fs) "critical" in
  let h := count_occ string_dec (map Finding.severity fs) "high" in
  let m := count_occ string_dec (map Finding.severity fs) "medium" in
  let r := score fs in
  (criticalIssues r = c /\ highIssues r = h /\ mediumIssues r = m
   /\ findings r = fs)
  /\ securityScore r
     = Z.max 0 (100 - 40 * Z.of_nat c - 20 * Z.of_nat h - 10 * Z.of_nat m)%Z
  /\ (0 <= securityScore r <= 100)%Z
  /\ (forall f xs ys, fs = xs ++ f :: ys -> Finding.severity f = "low" ->
        securityScore (score (xs ++ ys)) = securityScore r)
  /\ ((0 < c /\ risk_level r = "CRITICAL")
      \/ (c = 0 /\ 2 < h /\ risk_level r = "HIGH")
      \/ (c = 0 /\ h <= 2 /\ 3 < m /\ risk_level r = "MEDIUM")
      \/ (c = 0 /\ h <= 2 /\ m <= 3 /\ risk_level r = "LOW"))
  /\ (deployment_ready r = true <-> c = 0 /\ h <= 1)
  /\ (fs = [] -> deployment_ready r = true /\ risk_level r = "LOW")
  /\ (forall rt code, exists found,
        scanMoveSource rt code = Returned found
        /\ performComprehensiveSecurityScan rt code = Returned (score found)).
Proof.
  intros c h m r.
  assert (Ec : criticalIssues r = c) by apply count_severity_count_occ.
  assert (Eh : highIssues r = h) by apply count_severity_count_occ.
  assert (Em : mediumIssues r = m) by apply count_severity_count_occ.
  assert (Es : securityScore r
     = Z.max 0 (100 - 40 * Z.of_nat c - 20 * Z.of_nat h - 10 * Z.of_nat m)%Z).
  { subst r. unfold score. cbn [securityScore].
    rewrite !count_severity_count_occ. fold c h m. lia. }
  assert (Er : risk_level r =
     if (0 <? c)%nat then "CRITICAL" else if (2 <? h)%nat then "HIGH"
     else if (3 <? m)%nat then "MEDIUM" else "LOW").
  { subst r. unfold score. cbn [risk_level].
    rewrite !count_severity_count_occ. reflexivity. }
  assert (Ed : deployment_ready r = (c =? 0)%nat && (h <=? 1)%nat).
  { subst r. unfold score. cbn [deployment_ready].
    rewrite !count_severity_count_occ. reflexivity. }
  clearbody c h m.
  split; [repeat split; assumption|].
  split; [exact Es|].
  split; [rewrite Es; lia|].
  split.
  { intros f xs ys E Hlow. subst r fs. symmetry.
    apply score_skips_uncounted; rewrite Hlow; discriminate. }
  split.
  { rewrite Er.
    destruct (Nat.ltb_spec 0 c); [left; auto|].
    destruct (Nat.ltb_spec 2 h); [right; left; repeat split; auto; lia|].
    destruct (Nat.ltb_spec 3 m);
      right; right; [left|right]; repeat split; auto; lia. }
  split.
  { rewrite Ed, andb_true_iff, Nat.eqb_eq, Nat.leb_le. reflexivity. }
  split.
  { intros E. subst r. rewrite E. split; reflexivity. }
  intros rt code. destruct (scanMoveSource_returns rt code) as [found E].
  exists found. split; [assumption|].
  unfold performComprehensiveSecurityScan. rewrite E. reflexivity.
Qed.

(** ** The binary64 threshold *)

Module Binary64Facts.
Import Binary64.
Local Open Scope Z_scope.

(** The literal [0.7] denotes [mant_0_7 * 2^-53]. *)
Example literal_0_7 :
  Prim2SF 0.7%float = S754_finite false (Z.to_pos mant_0_7) (-53).
Proof. vm_compute. reflexivity. Qed.

(** The integer model decides the comparison as the primitive binary64
    operations do: on every length below 200 with every counter, and around
    the threshold on 300 lengths from one million on and on the 300 largest
    array lengths. *)
Example ge_mul_0_7_agrees_with_prim :
  forallb (fun n =>
     forallb (fun f => Bool.eqb (ge_mul_0_7 (Z.of_nat f) (Z.of_nat n))
                                (ge_mul_0_7_prim (Z.of_nat f) (Z.of_nat n)))
             (seq 0 (n + 2)))
    (seq 0 200) = true
  /\ forallb (fun base =>
        forallb (fun i =>
           let N := base + Z.of_nat i in
           let c := (7 * N + 9) / 10 in
           forallb (fun F => Bool.eqb (ge_mul_0_7 F N) (ge_mul_0_7_prim F N))
                   [c - 2; c - 1; c; c + 1])
          (seq 0 300))
       [1000000; 2 ^ 32 - 300] = true.
Proof. vm_compute. split; reflexivity. Qed.

(** Shape of a rounding that drops [d > 0] bits. *)
Lemma round53_cases (P : Z) :
  0 <= P ->
  round53 P = P \/
  exists d q r,
    0 < d /\ d = Z.log2 P - 52 /\ P = q * 2 ^ d + r /\ 0 <= r < 2 ^ d /\ 0 <= q /\
    ((2 * r <= 2 ^ d /\ round53 P = q * 2 ^ d)
     \/ (2 ^ d <= 2 * r /\ round53 P = (q + 1) * 2 ^ d)).
Proof.
  intros HP. unfold round53.
  destruct (Z.leb_spec (Z.log2 P - 52) 0) as [Hd|Hd]; [left; reflexivity|].
  right. set (d := Z.log2 P - 52) in *.
  assert (Hpow : 0 < 2 ^ d) by (apply Z.pow_pos_nonneg; lia).
  assert (Hhalf : 2 ^ d = 2 * 2 ^ (d - 1)).
  { replace d with (Z.succ (d - 1)) at 1 by lia. apply Z.pow_succ_r. lia. }
  exists d, (P / 2 ^ d), (P mod 2 ^ d).
  pose proof (Z.mod_pos_bound P (2 ^ d) Hpow) as Hr.
  pose proof (Z.div_mod P (2 ^ d) ltac:(lia)) as Hdm.
  assert (0 <= P / 2 ^ d) by (apply Z.div_pos; lia).
  repeat split; try lia.
  destruct (Z.ltb_spec (P mod 2 ^ d) (2 ^ (d - 1))); [left; split; [lia|reflexivity]|].
  destruct (Z.ltb_spec (2 ^ (d - 1)) (P mod 2 ^ d)); [right; split; [lia|reflexivity]|].
  destruct (Z.even (P / 2 ^ d)); [left|right]; (split; [lia|reflexivity]).
Qed.

(** The rounding never passes a point of the grid it rounds to. *)
Lemma round53_le_grid (P c : Z) :
  0 <= P -> P < 2 ^ 106 -> P <= c * 2 ^ 53 -> round53 P <= c * 2 ^ 53.
Proof.
  intros HP Hlt Hle.
  destruct (round53_cases P HP) as [->|(d & q & r & Hd & Ed & EP & Hr & Hq & Hcase)];
    [assumption|].
  assert (Hd53 : d <= 53).
  { assert (Z.log2 P < 106); [|lia].
    destruct (Z.eq_dec P 0) as [->|]; [simpl; lia|].
    apply Z.log2_lt_pow2; lia. }
  assert (Hpow : 0 < 2 ^ d) by (apply Z.pow_pos_nonneg; lia).
  assert (E53 : 2 ^ 53 = 2 ^ (53 - d) * 2 ^ d).
  { rewrite <- Z.pow_add_r by lia. f_equal. lia. }
  destruct Hcase as [[_ ->]|[Hh ->]]; [nia|].
  rewrite E53 in *. set (k := c * 2 ^ (53 - d)) in *.
  replace (c * (2 ^ (53 - d) * 2 ^ d)) with (k * 2 ^ d) in * by (unfold k; ring).
  assert (q < k) by nia. nia.
Qed.

(** Relative error of the rounding: at most [2^-53]. *)
Lemma round53_lower (P : Z) :
  0 <= P -> P * (2 ^ 53 - 1) <= round53 P * 2 ^ 53.
Proof.
  intros HP.
  destruct (round53_cases P HP) as [->|(d & q & r & Hd & Ed & EP & Hr & Hq & Hcase)];
    [lia|].
  assert (Hpow : 0 < 2 ^ d) by (apply Z.pow_pos_nonneg; lia).
  assert (HP0 : 0 < P).
  { destruct (Z.eq_dec P 0) as [->|]; [|lia]. simpl in Ed. lia. }
  assert (Hlog : 2 ^ (d + 52) <= P).
  { replace (d + 52) with (Z.log2 P) by lia. apply Z.log2_spec. assumption. }
  rewrite Z.pow_add_r in Hlog by lia.
  destruct Hcase as [[Hh ->]|[Hh ->]]; nia.
Qed.

(** [n * 0.7] against the integers, for every array length [n]. *)
Lemma mul_0_7_le_iff (n : nat) (c : Z) :
  Z.of_nat n < 2 ^ 32 ->
  (mul_0_7 (Z.of_nat n) <= c * 2 ^ 53 <-> 7 * Z.of_nat n <= 10 * c).
Proof.
  intros Hn. unfold mul_0_7.
  set (P := Z.of_nat n * mant_0_7).
  assert (HP : 0 <= P) by (unfold P, mant_0_7; lia).
  assert (E10 : 10 * P = Z.of_nat n * (7 * 2 ^ 53 - 4))
    by (unfold P, mant_0_7; lia).
  split.
  - intros Hle. pose proof (round53_lower P HP) as Hlow.
    destruct (Z.le_gt_cases (7 * Z.of_nat n) (10 * c)) as [|Hgt]; [assumption|].
    exfalso. lia.
  - intros Hc. apply round53_le_grid; [assumption| |]; lia.
Qed.

End Binary64Facts.

Lemma ceil_70_percent_spec (n : nat) :
  7 * n <= 10 * ceil_70_percent n < 7 * n + 10.
Proof.
  unfold ceil_70_percent.
  pose proof (Nat.div_mod_eq (7 * n + 9) 10) as E.
  pose proof (Nat.mod_upper_bound (7 * n + 9) 10 ltac:(discriminate)) as B.
  lia.
Qed.

(** C2.  A call-flow rule with [N] tokens (an array, so [N < 2^32]) is
    activated exactly when at least [ceil(0.7 * N)] of its tokens occur in
    the full source, [ceil(0.7 * N)] being the least integer [c] with
    [7 * N <= 10 * c]; a rule that is not activated emits nothing. *)
Theorem C2_threshold_law (source : string) (callPattern : list string) :
  (Z.of_nat (List.length callPattern) < 2 ^ 32)%Z ->
  (activated source callPattern = true
   <-> ceil_70_percent (List.length callPattern)
       <= List.length (filter (fun call => JS.includes source call) callPattern))
  /\ (7 * List.length callPattern
      <= 10 * ceil_70_percent (List.length callPattern)
      < 7 * List.length callPattern + 10)
  /\ (forall t p,
        Threat.pattern t = Some p ->
        Pattern.function_calls p = Some callPattern ->
        activated source callPattern = false ->
        call_flow_findings t source = []).
Proof.
  intros HN. split; [|split].
  - unfold activated, Binary64.ge_times_0_7, Binary64.ge_mul_0_7.
    fold (foundCalls source callPattern).
    rewrite Z.leb_le, Binary64Facts.mul_0_7_le_iff by assumption.
    pose proof (ceil_70_percent_spec (List.length callPattern)). lia.
  - apply ceil_70_percent_spec.
  - intros t p Hp Hc Hact. unfold call_flow_findings.
    rewrite Hp, Hc, Hact. reflexivity.
Qed.

(** The count is taken on the full source: a token that occurs only in a
    comment line, which the line matcher never sees, activates the rule. *)
Example activation_reads_comments :
  source_lines "// flash_swap(pool)" = []
  /\ activated "// flash_swap(pool)" ["flash_swap"] = true.
Proof. vm_compute. split; reflexivity. Qed.

Lemma C2_threshold_law_witness :
  activated "let x = flash_swap(a); let p = get_price(x);"
    ["flash_swap"; "get_price"; "repay"] = true
  <-> ceil_70_percent (List.length ["flash_swap"; "get_price"; "repay"])
      <= List.length
           (filter
              (fun call =>
                 JS.includes "let x = flash_swap(a); let p = get_price(x);" call)
              ["flash_swap"; "get_price"; "repay"]).
Proof.
  refine (proj1 (C2_threshold_law
                   "let x = flash_swap(a); let p = get_price(x);"
                   ["flash_swap"; "get_price"; "repay"] _)).
  vm_compute. reflexivity.
Defined.

(** ** The call-flow matcher *)

Section CallFlow.

Variable source : string.

Lemma flow_check_cases (check : string) :
  (flow_check source check = [check] /\ flow_check_missing source check)
  \/ (flow_check source check = [] /\ ~ flow_check_missing source check).
Proof.
  unfold flow_check, flow_check_missing.
  destruct (JS.includes source (JS.replace_first "_" check));
    destruct (JS.includes source check); simpl;
    solve [ left; auto | right; split; [reflexivity | intros [? ?]; discriminate] ].
Qed.

Lemma in_flow_missing (p : Pattern.t) (check : string) :
  In check (flow_missing p source)
  <-> In check (declared_checks p) /\ flow_check_missing source check.
Proof.
  unfold flow_missing, declared_checks.
  destruct (Pattern.missing_checks p) as [mcs|]; [|simpl; tauto].
  rewrite in_flat_map. split.
  - intros (c & Hc & Hin).
    destruct (flow_check_cases c) as [[E M]|[E _]]; rewrite E in Hin.
    + destruct Hin as [<-|[]]. auto.
    + destruct Hin.
  - intros [Hin M]. exists check. split; [assumption|].
    destruct (flow_check_cases check) as [[E _]|[_ N]]; [|contradiction].
    rewrite E. left; reflexivity.
Qed.

Lemma flow_missing_nil_iff (p : Pattern.t) :
  flow_missing p source = []
  <-> forall check, In check (declared_checks p) ->
                    ~ flow_check_missing source check.
Proof.
  split.
  - intros E check Hin M.
    assert (H : In check (flow_missing p source)) by (apply in_flow_missing; auto).
    rewrite E in H. destruct H.
  - intros H. destruct (flow_missing p source) as [|c l] eqn:E; [reflexivity|].
    assert (Hin : In c (flow_missing p source)) by (rewrite E; left; reflexivity).
    apply in_flow_missing in Hin. destruct Hin as [Hin M].
    exfalso. exact (H c Hin M).
Qed.

(** The call-flow branch of an activated rule. *)
Lemma call_flow_findings_activated (t : Threat.t) (p : Pattern.t)
    (callPattern : list string) :
  Threat.pattern t = Some p ->
  Pattern.function_calls p = Some callPattern ->
  activated source callPattern = true ->
  call_flow_findings t source =
    match flow_missing p source with
    | [] => []
    | missingChecks =>
        [ Finding.mk (Threat.id t) (Threat.severity t)
            (LineText "Multiple") "Call Pattern"
            (JS.join " + " callPattern) missingChecks
            (Threat.recommendation t) (Threat.fix_ t)
            (JS.or_default (Threat.exploit_example t) "Unknown")
            (JS.or_default (Threat.cve_reference t) "None") ]
    end.
Proof.
  intros Hp Hc Hact. unfold call_flow_findings. rewrite Hp, Hc, Hact.
  destruct (flow_missing p source); reflexivity.
Qed.

(** The checks a call-flow finding reports are the missing ones. *)
Lemma call_flow_reported (t : Threat.t) (p : Pattern.t)
    (callPattern : list string) :
  Threat.pattern t = Some p ->
  Pattern.function_calls p = Some callPattern ->
  activated source callPattern = true ->
  flat_map Finding.missing_checks (call_flow_findings t source)
  = flow_missing p source.
Proof.
  intros Hp Hc Hact.
  rewrite (call_flow_findings_activated t p callPattern Hp Hc Hact).
  destruct (flow_missing p source); simpl; [reflexivity|].
  rewrite app_nil_r. reflexivity.
Qed.

End CallFlow.

Lemma replace_first_strip (s : string) :
  underscores s <= 1 -> JS.replace_first "_"%char s = strip_underscores s.
Proof.
  induction s as [|c s IH]; simpl; [reflexivity|].
  destruct (Ascii.eqb c "_"%char); simpl; intros H.
  - assert (H0 : underscores s = 0) by lia. clear - H0.
    induction s as [|d s IH]; simpl in *; [reflexivity|].
    destruct (Ascii.eqb d "_"%char); simpl in *; [discriminate|].
    rewrite <- IH by assumption. reflexivity.
  - rewrite IH by assumption. reflexivity.
Qed.

(** C3, as stated, fails twice.  On a source that holds the literal
    [tx_context::sender] the stated rule decides [signer_check] present, and
    the engine reports it missing; on a source that holds [maxsupplycheck]
    the stated rule decides [max_supply_check] present, and the engine
    reports it missing. *)
Lemma C3_counterexample :
  (spec_flow_present "flash_swap(pool); tx_context::sender(ctx)" "signer_check"
     = true
   /\ activated "flash_swap(pool); tx_context::sender(ctx)" ["flash_swap"]
      = true
   /\ map Finding.missing_checks
        (call_flow_findings (flow_rule "flash_swap" ["signer_check"])
           "flash_swap(pool); tx_context::sender(ctx)")
      = [["signer_check"]])
  /\ (spec_flow_present "flash_swap(pool); maxsupplycheck(c)" "max_supply_check"
        = true
      /\ map Finding.missing_checks
           (call_flow_findings (flow_rule "flash_swap" ["max_supply_check"])
              "flash_swap(pool); maxsupplycheck(c)")
         = [["max_supply_check"]]).
Proof. vm_compute. repeat split. Qed.

(** C3, amended.  For an activated call-flow rule and a declared check, the
    check is reported missing only if the whole source holds no trace of its
    name: a source that contains the name itself decides it present, and for
    a name with at most one underscore the check is present exactly when the
    source contains the name with the underscore stripped or the name itself.
    The literals of the line matcher play no part. *)
Theorem C3_flow_check_by_name (t : Threat.t) (p : Pattern.t)
    (callPattern : list string) (source check : string) :
  Threat.pattern t = Some p ->
  Pattern.function_calls p = Some callPattern ->
  activated source callPattern = true ->
  In check (declared_checks p) ->
  let reported :=
    In check (flat_map Finding.missing_checks (call_flow_findings t source)) in
  (JS.includes source check = true -> ~ reported)
  /\ (underscores check <= 1 ->
      (~ reported <->
       JS.includes source (strip_underscores check) = true
       \/ JS.includes source check = true)).
Proof.
  intros Hp Hc Hact Hin reported. unfold reported.
  rewrite (call_flow_reported source t p callPattern Hp Hc Hact).
  rewrite in_flow_missing. unfold flow_check_missing. split.
  - intros E [_ [_ N]]. congruence.
  - intros Hu. rewrite (replace_first_strip check Hu).
    destruct (JS.includes source (strip_underscores check));
      destruct (JS.includes source check); split;
      solve [ auto | intros [?|?]; discriminate
            | intros _ [_ [? ?]]; discriminate
            | intros H; exfalso; apply H; auto ].
Qed.

Lemma C3_flow_check_by_name_witness :
  ~ In "signer_check"
       (flat_map Finding.missing_checks
          (call_flow_findings (flow_rule "flash_swap" ["signer_check"])
             "flash_swap(pool); signercheck(ctx)"))
  <-> JS.includes "flash_swap(pool); signercheck(ctx)"
        (strip_underscores "signer_check") = true
      \/ JS.includes "flash_swap(pool); signercheck(ctx)" "signer_check" = true.
Proof.
  refine (proj2 (C3_flow_check_by_name
                   (flow_rule "flash_swap" ["signer_check"])
                   (Pattern.mk None (Some ["flash_swap"]) (Some ["signer_check"]))
                   ["flash_swap"] "flash_swap(pool); signercheck(ctx)"
                   "signer_check" _ _ _ _) _).
  - reflexivity.
  - reflexivity.
  - vm_compute. reflexivity.
  - simpl. left. reflexivity.
  - vm_compute. lia.
Defined.

(** C4, as stated, fails on the [line] field: the finding of an activated
    rule with a missing check carries the string [Multiple]. *)
Lemma C4_counterexample :
  exists f,
    call_flow_findings (flow_rule "flash_swap" ["oracle_update_guard"])
      "flash_swap(pool);" = [f]
    /\ Finding.line f = LineText "Multiple"
    /\ Finding.line f <> LineText "multiple".
Proof.
  eexists. split; [vm_compute; reflexivity|].
  split; [reflexivity | discriminate].
Qed.

(** C4, amended.  An activated call-flow rule with at least one declared
    check missing emits exactly one finding, with [line] the string
    [Multiple], [function] the string [Call Pattern], [snippet] the call
    tokens joined by [" + "], and the missing checks; with no declared check
    missing -- in particular when [missing_checks] is empty or absent -- it
    emits nothing.  For a rule without function name these are all the
    findings of the rule. *)
Theorem C4_call_flow_finding (t : Threat.t) (p : Pattern.t)
    (callPattern : list string) (source : string) :
  Threat.pattern t = Some p ->
  Pattern.function_calls p = Some callPattern ->
  activated source callPattern = true ->
  ((exists check,
       In check (declared_checks p) /\ flow_check_missing source check) ->
   exists f,
     call_flow_findings t source = [f]
     /\ Finding.line f = LineText "Multiple"
     /\ Finding.function f = "Call Pattern"
     /\ Finding.snippet f = JS.join " + " callPattern
     /\ Finding.id f = Threat.id t
     /\ Finding.severity f = Threat.severity t
     /\ (forall check, In check (Finding.missing_checks f) <->
           In check (declared_checks p) /\ flow_check_missing source check))
  /\ ((forall check, In check (declared_checks p) ->
         ~ flow_check_missing source check) ->
      call_flow_findings t source = [])
  /\ (Pattern.missing_checks p = None \/ Pattern.missing_checks p = Some [] ->
      call_flow_findings t source = [])
  /\ (Pattern.function_name p = None ->
      scan [t] source = call_flow_findings t source).
Proof.
  intros Hp Hc Hact.
  pose proof (call_flow_findings_activated source t p callPattern Hp Hc Hact)
    as E.
  split; [|split; [|split]]; cycle 3.
  { intros Hn. unfold scan, function_findings. simpl.
    rewrite Hp, Hn, app_nil_r. reflexivity. }
  - intros (check & Hin & M).
    assert (Hm : In check (flow_missing p source))
      by (apply in_flow_missing; auto).
    destruct (flow_missing p source) as [|c l] eqn:Em; [destruct Hm|].
    eexists. split; [exact E|].
    do 5 (split; [reflexivity|]).
    intros check0. cbn [Finding.missing_checks].
    rewrite <- Em. apply in_flow_missing.
  - intros H. apply flow_missing_nil_iff in H. rewrite H in E. exact E.
  - intros H. rewrite E. unfold flow_missing.
    destruct H as [-> | ->]; reflexivity.
Qed.

Lemma C4_call_flow_finding_witness :
  call_flow_findings
    (Threat.mk "flashloan_price_oracle_exploit" "critical"
       (Some (Pattern.mk None (Some ["flash_swap"; "get_price"]) None))
       "Use a time-weighted price" "Add an oracle update guard" None None)
    "flash_swap(pool); get_price(pool)" = [].
Proof.
  refine (proj1 (proj2 (proj2
    (C4_call_flow_finding
       (Threat.mk "flashloan_price_oracle_exploit" "critical"
          (Some (Pattern.mk None (Some ["flash_swap"; "get_price"]) None))
          "Use a time-weighted price" "Add an oracle update guard" None None)
       (Pattern.mk None (Some ["flash_swap"; "get_price"]) None)
       ["flash_swap"; "get_price"]
       "flash_swap(pool); get_price(pool)" _ _ _))) _).
  - reflexivity.
  - reflexivity.
  - vm_compute. reflexivity.
  - left. reflexivity.
Defined.

(** ** The line matcher *)

Section Lines.

Lemma startsWith_app (s p q : string) :
  JS.startsWith s (p ++ q)%string = true -> JS.startsWith s p = true.
Proof.
  revert s. induction p as [|c p IH]; intros [|d s];
    try reflexivity; try discriminate.
  cbn [append JS.startsWith]. rewrite !andb_true_iff. intros [E H]. split; [assumption|]. apply IH, H.
Qed.

(** A doc-comment marker is a line-comment marker: the second conjunct of the
    filter never decides. *)
Lemma is_comment_line_eq (ln : string) :
  is_comment_line ln = JS.startsWith (JS.trim ln) "//".
Proof.
  unfold is_comment_line.
  pose proof (startsWith_app (JS.trim ln) "//" "/") as H.
  change ("//" ++ "/")%string with "///" in H.
  destruct (JS.startsWith (JS.trim ln) "//");
    destruct (JS.startsWith (JS.trim ln) "///"); try reflexivity.
  discriminate H. reflexivity.
Qed.

Lemma source_lines_filter (source : string) :
  source_lines source
  = filter (fun ln => negb (is_comment_line ln)) (JS.split_lines source).
Proof.
  unfold source_lines, is_comment_line. apply filter_ext.
  intros ln. rewrite negb_involutive. reflexivity.
Qed.

Lemma source_lines_kept (source ln : string) :
  In ln (source_lines source) ->
  In ln (JS.split_lines source) /\ is_comment_line ln = false.
Proof.
  rewrite source_lines_filter, filter_In.
  intros [Hin Hk]. split; [assumption|].
  destruct (is_comment_line ln); [discriminate | reflexivity].
Qed.

(** One entry of [missing_checks] pushes itself, and only when it is one of
    the four kinds and none of its literals occurs in the context. *)
Lemma line_check_eq (ctx mc : string) :
  line_check ctx mc =
    if existsb (String.eqb mc) line_check_kinds
       && negb (existsb (JS.includes ctx) (evidence mc))
    then [mc] else [].
Proof.
  unfold line_check, evidence, line_check_kinds. cbn [existsb].
  destruct (String.eqb_spec mc "signer_check") as [->|_].
  { cbn [String.eqb Ascii.eqb Bool.eqb andb orb existsb app].
    destruct (JS.includes ctx "tx_context::sender");
      destruct (JS.includes ctx "signer::"); reflexivity. }
  destruct (String.eqb_spec mc "max_supply_check") as [->|_].
  { cbn [String.eqb Ascii.eqb Bool.eqb andb orb existsb app].
    destruct (JS.includes ctx "MAX_SUPPLY");
      destruct (JS.includes ctx "total_supply"); reflexivity. }
  destruct (String.eqb_spec mc "reentrancy_guard") as [->|_].
  { cbn [String.eqb Ascii.eqb Bool.eqb andb orb existsb app].
    destruct (JS.includes ctx "reentrancy_guard");
      destruct (JS.includes ctx "ReentrancyGuard"); reflexivity. }
  destruct (String.eqb_spec mc "type_verification") as [->|_].
  { cbn [String.eqb Ascii.eqb Bool.eqb andb orb existsb app].
    destruct (JS.includes ctx "assert!");
      destruct (JS.includes ctx "dynamic_field::exists_with_type"); reflexivity. }
  reflexivity.
Qed.

Lemma in_line_check_kinds (mc : string) :
  existsb (String.eqb mc) line_check_kinds = true <-> In mc line_check_kinds.
Proof.
  rewrite existsb_exists. split.
  - intros (k & Hk & E). apply String.eqb_eq in E. subst. assumption.
  - intros H. exists mc. split; [assumption | apply String.eqb_refl].
Qed.

Lemma in_line_check (ctx mc x : string) :
  In x (line_check ctx mc)
  <-> x = mc /\ In mc line_check_kinds
      /\ forall lit, In lit (evidence mc) -> JS.includes ctx lit = false.
Proof.
  rewrite line_check_eq.
  destruct (existsb (String.eqb mc) line_check_kinds) eqn:Ek; simpl.
  - apply in_line_check_kinds in Ek.
    destruct (existsb (JS.includes ctx) (evidence mc)) eqn:Ee; simpl.
    + split; [intros []|]. intros (_ & _ & H).
      apply existsb_exists in Ee. destruct Ee as (lit & Hl & E).
      rewrite (H lit Hl) in E. discriminate.
    + split.
      * intros [<-|[]]. repeat split; [assumption|].
        intros lit Hl. destruct (JS.includes ctx lit) eqn:E; [|reflexivity].
        assert (existsb (JS.includes ctx) (evidence mc) = true)
          by (apply existsb_exists; eauto).
        congruence.
      * intros (-> & _). left; reflexivity.
  - split; [intros []|]. intros (_ & H & _).
    apply in_line_check_kinds in H. congruence.
Qed.

Lemma in_line_missing (p : Pattern.t) (ctx x : string) :
  In x (line_missing p ctx)
  <-> In x (declared_checks p) /\ In x line_check_kinds
      /\ forall lit, In lit (evidence x) -> JS.includes ctx lit = false.
Proof.
  unfold line_missing, declared_checks.
  destruct (Pattern.missing_checks p) as [mcs|]; [|simpl; tauto].
  rewrite in_flat_map. split.
  - intros (mc & Hmc & Hx). apply in_line_check in Hx.
    destruct Hx as (-> & Hk & He). auto.
  - intros (Hd & Hk & He). exists x. split; [assumption|].
    apply in_line_check. auto.
Qed.

Variables (t : Threat.t) (p : Pattern.t) (fname : string).

Lemma in_match_line (lines : list string) (ln : string) (idx : nat)
    (f : Finding.t) :
  In f (match_line t p fname lines ln idx)
  <-> JS.includes ln fname = true
      /\ line_missing p (context lines idx) <> []
      /\ f = Finding.mk (Threat.id t) (Threat.severity t)
               (LineNumber (idx + 1)) fname (JS.trim ln)
               (line_missing p (context lines idx))
               (Threat.recommendation t) (Threat.fix_ t)
               (JS.or_default (Threat.exploit_example t) "Unknown")
               (JS.or_default (Threat.cve_reference t) "None").
Proof.
  unfold match_line.
  destruct (JS.includes ln fname); [|simpl; split; [tauto | intros [? _]; discriminate]].
  destruct (line_missing p (context lines idx)) as [|m ms]; simpl.
  - split; [tauto | intros (_ & H & _); congruence].
  - split.
    + intros [<-|[]]. repeat split. discriminate.
    + intros (_ & _ & ->). left; reflexivity.
Qed.

Lemma in_forEach_line (lines rest : list string) (idx : nat) (f : Finding.t) :
  In f (forEach_line t p fname lines rest idx)
  <-> exists i ln,
        nth_error rest i = Some ln
        /\ In f (match_line t p fname lines ln (idx + i)).
Proof.
  revert idx. induction rest as [|ln rest IH]; intros idx; simpl.
  - split; [intros [] | intros ([|i] & ? & H & _); discriminate].
  - rewrite in_app_iff, IH. split.
    + intros [H|(i & l & Hn & H)].
      * exists 0, ln. rewrite Nat.add_0_r. auto.
      * exists (S i), l. rewrite Nat.add_succ_r. auto.
    + intros ([|i] & l & Hn & H); simpl in Hn.
      * injection Hn as <-. rewrite Nat.add_0_r in H. auto.
      * right. exists i, l. rewrite Nat.add_succ_r in H. auto.
Qed.

End Lines.

(** A function-keyed finding comes from a line of the scanned sequence that
    contains the function name, and carries the 1-based index of that line,
    its trimmed text and the checks missing from its context. *)
Lemma in_function_findings (t : Threat.t) (lines : list string)
    (f : Finding.t) :
  In f (function_findings t lines)
  <-> exists p fname idx ln,
        Threat.pattern t = Some p
        /\ Pattern.function_name p = Some fname
        /\ JS.truthy fname = true
        /\ nth_error lines idx = Some ln
        /\ JS.includes ln fname = true
        /\ line_missing p (context lines idx) <> []
        /\ f = Finding.mk (Threat.id t) (Threat.severity t)
                 (LineNumber (idx + 1)) fname (JS.trim ln)
                 (line_missing p (context lines idx))
                 (Threat.recommendation t) (Threat.fix_ t)
                 (JS.or_default (Threat.exploit_example t) "Unknown")
                 (JS.or_default (Threat.cve_reference t) "None").
Proof.
  unfold function_findings.
  destruct (Threat.pattern t) as [p|] eqn:Ep;
    [|split; [intros [] | intros (? & ? & ? & ? & H & _); discriminate]].
  destruct (Pattern.function_name p) as [fname|] eqn:En.
  - destruct (JS.truthy fname) eqn:Et.
    + rewrite in_forEach_line. split.
      * intros (i & ln & Hn & H). apply in_match_line in H.
        destruct H as (Hi & Hm & ->). simpl in *.
        exists p, fname, i, ln. repeat split; auto.
      * intros (p' & fname' & idx & ln & Hp & Hf & _ & Hn & Hi & Hm & ->).
        injection Hp as <-. rewrite En in Hf. injection Hf as <-.
        exists idx, ln. split; [assumption|]. apply in_match_line. auto.
    + split; [intros []|].
      intros (p' & fname' & idx & ln & Hp & Hf & Ht & _).
      injection Hp as <-. rewrite En in Hf. injection Hf as <-. congruence.
  - split; [intros []|].
    intros (p' & fname' & idx & ln & Hp & Hf & _).
    injection Hp as <-. congruence.
Qed.

(** ** Lines, comments and positions *)

Lemma split_lines_nonempty (s : string) : JS.split_lines s <> [].
Proof.
  destruct s as [|c s]; simpl; [discriminate|].
  destruct (Ascii.eqb c JS.LF); [discriminate|].
  destruct (JS.split_lines s); discriminate.
Qed.

(** Splitting distributes over a line feed. *)
Lemma split_lines_app_LF (s1 s2 : string) :
  JS.split_lines (s1 ++ String JS.LF s2)%string
  = JS.split_lines s1 ++ JS.split_lines s2.
Proof.
  induction s1 as [|c s1 IH]; cbn [append JS.split_lines].
  - rewrite Ascii.eqb_refl. reflexivity.
  - destruct (Ascii.eqb c JS.LF); [rewrite IH; reflexivity|].
    rewrite IH. pose proof (split_lines_nonempty s1).
    destruct (JS.split_lines s1); [contradiction | reflexivity].
Qed.

Lemma split_lines_one (s : string) :
  no_LF s = true -> JS.split_lines s = [s].
Proof.
  induction s as [|c s IH]; cbn [no_LF JS.split_lines]; [reflexivity|].
  destruct (Ascii.eqb c JS.LF); [discriminate|]. simpl.
  intros H. rewrite (IH H). reflexivity.
Qed.

(** Position of a kept element: the [idx]-th element of [filter keep l] is
    the element of [l] at the index [j] that has [idx] kept elements before
    it. *)
Lemma nth_error_filter {A : Type} (keep : A -> bool) (l : list A)
    (idx : nat) (x : A) :
  nth_error (filter keep l) idx = Some x ->
  exists j,
    nth_error l j = Some x /\ keep x = true
    /\ idx = List.length (filter keep (firstn j l)).
Proof.
  revert idx. induction l as [|a l IH]; intros idx; simpl.
  - destruct idx; discriminate.
  - destruct (keep a) eqn:Ea.
    + destruct idx as [|idx]; simpl.
      * intros [= <-]. exists 0. auto.
      * intros H. destruct (IH idx H) as (j & Hj & Hk & Hl).
        exists (S j). simpl. rewrite Ea. simpl. auto.
    + intros H. destruct (IH idx H) as (j & Hj & Hk & Hl).
      exists (S j). simpl. rewrite Ea. auto.
Qed.

(** With [k] dropped elements before index [j], the kept element at [j] has
    index [j - k] after filtering. *)
Lemma kept_index {A : Type} (keep : A -> bool) (l : list A) (j : nat) :
  j <= List.length l ->
  List.length (filter keep (firstn j l))
  = j - List.length (filter (fun x => negb (keep x)) (firstn j l)).
Proof.
  intros Hj. pose proof (filter_length keep (firstn j l)) as E.
  rewrite length_firstn, Nat.min_l in E by assumption. lia.
Qed.

(** The slice of the context window, without the clamps. *)
Lemma window_slice (lines : list string) (idx : nat) :
  JS.slice lines (Nat.max 0 (idx - 5)) (Nat.min (List.length lines) (idx + 10))
  = firstn (idx + 10 - (idx - 5)) (skipn (idx - 5) lines).
Proof.
  unfold JS.slice. rewrite Nat.max_0_l.
  apply nth_error_ext. intros n. rewrite !nth_error_firstn, nth_error_skipn.
  destruct (Nat.ltb_spec n (Nat.min (List.length lines) (idx + 10) - (idx - 5)));
    destruct (Nat.ltb_spec n (idx + 10 - (idx - 5))); try reflexivity; try lia.
  symmetry. apply nth_error_None. lia.
Qed.

(** The context of a match depends on the lines at the indices
    [idx - 5 .. idx + 9] only. *)
Lemma context_window (lines lines' : list string) (idx : nat) :
  (forall i, idx - 5 <= i <= idx + 9 ->
             nth_error lines i = nth_error lines' i) ->
  context lines idx = context lines' idx.
Proof.
  intros H. unfold context. rewrite !window_slice. f_equal.
  apply nth_error_ext. intros n. rewrite !nth_error_firstn, !nth_error_skipn.
  destruct (Nat.ltb_spec n (idx + 10 - (idx - 5))); [|reflexivity].
  apply H. lia.
Qed.

Lemma source_lines_app_LF (s1 s2 : string) :
  source_lines (s1 ++ String JS.LF s2)%string
  = source_lines s1 ++ source_lines s2.
Proof.
  unfold source_lines. rewrite split_lines_app_LF, filter_app. reflexivity.
Qed.

Lemma source_lines_comment (c : string) :
  no_LF c = true -> is_comment_line c = true -> source_lines c = [].
Proof.
  intros Hc Hcom. rewrite source_lines_filter, (split_lines_one c Hc).
  simpl. rewrite Hcom. reflexivity.
Qed.

Lemma in_firstn_skipn {A : Type} (x : A) (l : list A) (a n : nat) :
  In x (firstn n (skipn a l)) -> In x l.
Proof.
  intros H. rewrite <- (firstn_skipn a l). apply in_or_app. right.
  rewrite <- (firstn_skipn n (skipn a l)). apply in_or_app. left. exact H.
Qed.

(** No match, no finding. *)
Lemma function_findings_no_match (t : Threat.t) (lines : list string) :
  (forall p fname ln,
     Threat.pattern t = Some p -> Pattern.function_name p = Some fname ->
     In ln lines -> JS.includes ln fname = false) ->
  function_findings t lines = [].
Proof.
  intros H. destruct (function_findings t lines) as [|f fs] eqn:E; [reflexivity|].
  assert (Hin : In f (function_findings t lines)) by (rewrite E; left; reflexivity).
  apply in_function_findings in Hin.
  destruct Hin as (p & fname & idx & ln & Hp & Hf & _ & Hn & Hi & _).
  rewrite (H p fname ln Hp Hf (nth_error_In _ _ Hn)) in Hi. discriminate.
Qed.

(** C5.  Comment lines take no part in the line matcher.  The scanned
    sequence holds no line whose trimmed text starts with [//] (or [///]);
    every function-keyed finding quotes a scanned line and every context
    window is made of scanned lines; a comment line put before, between or
    after other lines leaves the scanned sequence, hence the function-keyed
    findings, unchanged, whatever it contains; and when every line that
    contains the function name is a comment line, the rule has no
    function-keyed finding. *)
Theorem C5_comment_lines (t : Threat.t) (source : string) :
  (forall ln, In ln (source_lines source) ->
     In ln (JS.split_lines source)
     /\ JS.startsWith (JS.trim ln) "//" = false
     /\ JS.startsWith (JS.trim ln) "///" = false)
  /\ (forall f, In f (function_findings t (source_lines source)) ->
        exists ln, In ln (source_lines source)
                   /\ is_comment_line ln = false
                   /\ Finding.snippet f = JS.trim ln)
  /\ (forall idx, exists window,
        context (source_lines source) idx = JS.join (String JS.LF "") window
        /\ Forall (fun ln => is_comment_line ln = false) window)
  /\ (forall s1 s2 c, no_LF c = true -> is_comment_line c = true ->
        let LF := String JS.LF "" in
        function_findings t (source_lines (s1 ++ LF ++ c ++ LF ++ s2)%string)
        = function_findings t (source_lines (s1 ++ LF ++ s2)%string)
        /\ function_findings t (source_lines (c ++ LF ++ s2)%string)
           = function_findings t (source_lines s2)
        /\ function_findings t (source_lines (s1 ++ LF ++ c)%string)
           = function_findings t (source_lines s1)
        /\ function_findings t (source_lines c) = [])
  /\ (forall p fname,
        Threat.pattern t = Some p -> Pattern.function_name p = Some fname ->
        (forall ln, In ln (JS.split_lines source) ->
                    JS.includes ln fname = true -> is_comment_line ln = true) ->
        function_findings t (source_lines source) = []).
Proof.
  split; [|split; [|split; [|split]]].
  - intros ln Hin. destruct (source_lines_kept source ln Hin) as [H1 H2].
    split; [assumption|]. rewrite is_comment_line_eq in H2.
    split; [assumption|].
    destruct (JS.startsWith (JS.trim ln) "///") eqn:E; [|reflexivity].
    rewrite (startsWith_app (JS.trim ln) "//" "/" E) in H2. discriminate.
  - intros f Hin. apply in_function_findings in Hin.
    destruct Hin as (p & fname & idx & ln & _ & _ & _ & Hn & _ & _ & ->).
    exists ln. apply nth_error_In in Hn.
    split; [assumption|]. split; [|reflexivity].
    apply (source_lines_kept source ln Hn).
  - intros idx. eexists. split; [reflexivity|].
    rewrite window_slice. apply Forall_forall. intros ln Hin.
    apply in_firstn_skipn in Hin.
    apply (source_lines_kept source ln Hin).
  - intros s1 s2 c Hc Hcom LF. subst LF.
    change (String JS.LF "" ++ ?x)%string with (String JS.LF x).
    cbn [append].
    rewrite !source_lines_app_LF, (source_lines_comment c Hc Hcom).
    rewrite app_nil_r. simpl. repeat split; try reflexivity.
    apply function_findings_no_match. intros ? ? ? _ _ [].
  - intros p fname Hp Hf H. apply function_findings_no_match.
    intros p' fname' ln Hp' Hf' Hin.
    rewrite Hp in Hp'. injection Hp' as <-.
    rewrite Hf in Hf'. injection Hf' as <-.
    destruct (source_lines_kept source ln Hin) as [H1 H2].
    destruct (JS.includes ln fname) eqn:E; [|reflexivity].
    rewrite (H ln H1 E) in H2. discriminate.
Qed.

(** C7.  The line matcher evaluates four check kinds: an entry of
    [missing_checks] can only push itself, and only when it is one of the
    four (each of which is pushed on an empty context).  A function-keyed
    rule that declares none of the four has no function-keyed finding,
    whatever the source. *)
Theorem C7_four_check_kinds (t : Threat.t) (p : Pattern.t) (source : string) :
  Threat.pattern t = Some p ->
  Forall (fun mc => ~ In mc line_check_kinds) (declared_checks p) ->
  (forall ctx mc x, In x (line_check ctx mc) ->
                    x = mc /\ In mc line_check_kinds)
  /\ (forall mc, In mc line_check_kinds -> line_check "" mc = [mc])
  /\ (forall ctx, line_missing p ctx = [])
  /\ function_findings t (source_lines source) = [].
Proof.
  intros Hp Hnone.
  assert (Hm : forall ctx, line_missing p ctx = []).
  { intros ctx. destruct (line_missing p ctx) as [|x l] eqn:E; [reflexivity|].
    assert (Hin : In x (line_missing p ctx)) by (rewrite E; left; reflexivity).
    apply in_line_missing in Hin. destruct Hin as (Hd & Hk & _).
    rewrite Forall_forall in Hnone. destruct (Hnone x Hd Hk). }
  split; [|split; [|split]].
  - intros ctx mc x Hin. apply in_line_check in Hin. tauto.
  - intros mc [<-|[<-|[<-|[<-|[]]]]]; reflexivity.
  - exact Hm.
  - destruct (function_findings t (source_lines source)) as [|f fs] eqn:E;
      [reflexivity|].
    assert (Hin : In f (function_findings t (source_lines source)))
      by (rewrite E; left; reflexivity).
    apply in_function_findings in Hin.
    destruct Hin as (p' & fname & idx & ln & Hp' & _ & _ & _ & _ & Hne & _).
    rewrite Hp in Hp'. injection Hp' as <-. destruct (Hne (Hm _)).
Qed.

Lemma C7_four_check_kinds_witness :
  function_findings
    (Threat.mk "unprotected_swap" "medium"
       (Some (Pattern.mk (Some "swap") None
                (Some ["slippage_guard"; "oracle_update_guard"])))
       "Bound the slippage" "Add a minimum output amount" None None)
    (source_lines "public fun swap(pool: &mut Pool, amount: u64) {") = [].
Proof.
  refine (proj2 (proj2 (proj2
    (C7_four_check_kinds
       (Threat.mk "unprotected_swap" "medium"
          (Some (Pattern.mk (Some "swap") None
                   (Some ["slippage_guard"; "oracle_update_guard"])))
          "Bound the slippage" "Add a minimum output amount" None None)
       (Pattern.mk (Some "swap") None
          (Some ["slippage_guard"; "oracle_update_guard"]))
       "public fun swap(pool: &mut Pool, amount: u64) {" _ _)))).
  - reflexivity.
  - repeat constructor; simpl; intros H;
      repeat (destruct H as [H|H]; [discriminate H|]); destruct H.
Defined.

(** C6.  The mint scenario: on the one-line source, with a catalog that
    holds only the rule [open_mint_function] (function name [mint], missing
    checks [signer_check]), the scan yields exactly one finding; its id is
    [open_mint_function] and its missing checks are [signer_check]. *)
Theorem C6_open_mint_scenario (severity recommendation fix_ : string)
    (exploit_example cve_reference : option string) :
  let rule := open_mint_function severity recommendation fix_
                exploit_example cve_reference in
  exists f,
    scan [rule] mint_source = [f]
    /\ Finding.id f = "open_mint_function"
    /\ Finding.missing_checks f = ["signer_check"]
    /\ Finding.line f = LineNumber 1
    /\ Finding.function f = "mint"
    /\ Finding.severity f = severity
    /\ (forall rt, loadThreats rt = Returned {| threats := [rule] |} ->
                   scanMoveSource rt mint_source = Returned [f]).
Proof.
  intros rule. eexists. split; [vm_compute; reflexivity|].
  repeat split.
  intros rt E. unfold scanMoveSource. rewrite E. reflexivity.
Qed.

(** On the multi-line layout both the declaration and the call [coin::mint]
    contain the function name: the rule then yields two findings. *)
Example mint_source_multiline_findings :
  map (fun f => (Finding.id f, Finding.line f, Finding.missing_checks f))
    (scan [open_mint_function "high" "r" "f" None None] mint_source_multiline)
  = [ ("open_mint_function", LineNumber 2, ["signer_check"]);
      ("open_mint_function", LineNumber 3, ["signer_check"]) ].
Proof. vm_compute. reflexivity. Qed.

(** C9.  When reading or parsing the catalog throws, [loadThreats] returns
    the empty rule set, [scanMoveSource] returns (it does not throw) the
    empty list of findings, and a scan over the empty catalog finds
    nothing. *)
Theorem C9_load_failure (rt : Runtime) (source : string) :
  (exists e, readFileSync rt = Thrown e)
  \/ (exists text e, readFileSync rt = Returned text
                     /\ JSON_parse rt text = Thrown e) ->
  loadThreats rt = Returned {| threats := [] |}
  /\ scanMoveSource rt source = Returned []
  /\ scan [] source = [].
Proof.
  intros H.
  assert (E : loadThreats rt = Returned {| threats := [] |}).
  { unfold loadThreats.
    destruct H as [[e ->] | (text & e & -> & Hp)]; simpl; [reflexivity|].
    rewrite Hp. reflexivity. }
  split; [exact E|]. split; [|reflexivity].
  unfold scanMoveSource. rewrite E. reflexivity.
Qed.

Lemma C9_load_failure_witness :
  loadThreats
    {| readFileSync := Thrown "ENOENT: no such file or directory";
       JSON_parse := fun _ => Thrown "Unexpected end of JSON input" |}
  = Returned {| threats := [] |}
  /\ scanMoveSource
       {| readFileSync := Thrown "ENOENT: no such file or directory";
          JSON_parse := fun _ => Thrown "Unexpected end of JSON input" |}
       mint_source
     = Returned []
  /\ scan [] mint_source = [].
Proof.
  apply (C9_load_failure
           {| readFileSync := Thrown "ENOENT: no such file or directory";
              JSON_parse := fun _ => Thrown "Unexpected end of JSON input" |}
           mint_source).
  left. exists "ENOENT: no such file or directory". reflexivity.
Defined.

(** C10.  [analyzeEconomicSecurity] is total.  With [flash_] or [borrow] in
    the source the report has exactly one [flash_loan_risk] entry, of
    severity high, and the level HIGH; with [price] or [oracle] it has
    exactly one [oracle_manipulation] entry, of severity medium, and the
    level MEDIUM unless it is already HIGH; without any of the four words
    the level is LOW and the list is empty, as on the empty source. *)
Theorem C10_economic_report (source : string) :
  let flash := JS.includes source "flash_" || JS.includes source "borrow" in
  let oracle := JS.includes source "price" || JS.includes source "oracle" in
  let r := analyzeEconomicSecurity source in
  Economic.risks r = (if flash then [flash_loan_risk] else [])
                     ++ (if oracle then [oracle_manipulation] else [])
  /\ count_type "flash_loan_risk" (Economic.risks r) = (if flash then 1 else 0)
  /\ count_type "oracle_manipulation" (Economic.risks r)
     = (if oracle then 1 else 0)
  /\ (forall e, In e (Economic.risks r) ->
        (Economic.type e = "flash_loan_risk" /\ Economic.severity e = "high")
        \/ (Economic.type e = "oracle_manipulation"
            /\ Economic.severity e = "medium"))
  /\ (flash = true -> Economic.risk_level r = "HIGH")
  /\ (flash = false -> oracle = true -> Economic.risk_level r = "MEDIUM")
  /\ (flash = false -> oracle = false ->
        Economic.risk_level r = "LOW" /\ Economic.risks r = [])
  /\ analyzeEconomicSecurity "" = Economic.mk [] "LOW".
Proof.
  intros flash oracle r. subst r. unfold analyzeEconomicSecurity.
  fold flash oracle. clearbody flash oracle.
  destruct flash, oracle; cbn;
    repeat split; try reflexivity; try discriminate;
    intros e He; cbn in He; intuition (subst; auto).
Qed.

(** * Further properties *)

(** ** Substrings and trimming *)

Lemma string_append_assoc (a b c : string) :
  ((a ++ b) ++ c = a ++ (b ++ c))%string.
Proof. induction a as [|x a IH]; simpl; [reflexivity | rewrite IH; reflexivity]. Qed.

Lemma string_append_nil_r (a : string) : (a ++ "" = a)%string.
Proof. induction a as [|x a IH]; simpl; [reflexivity | rewrite IH; reflexivity]. Qed.

Lemma startsWith_iff (s p : string) :
  JS.startsWith s p = true <-> exists post, s = (p ++ post)%string.
Proof.
  revert s. induction p as [|c p IH]; intros s.
  - split; [intros _; exists s; reflexivity|]. intros _. destruct s; reflexivity.
  - destruct s as [|d s]; cbn [JS.startsWith append].
    + split; [discriminate | intros [post H]; discriminate].
    + rewrite andb_true_iff, IH. split.
      * intros [E [post ->]]. apply Ascii.eqb_eq in E. subst. eauto.
      * intros [post [= -> ->]]. rewrite Ascii.eqb_refl. eauto.
Qed.

Lemma includes_cons (c : ascii) (s sub : string) :
  JS.includes (String c s) sub
  = JS.startsWith (String c s) sub || JS.includes s sub.
Proof. reflexivity. Qed.

(** [s.includes(sub)] holds exactly when [sub] occurs in [s]. *)
Lemma includes_iff (s sub : string) :
  JS.includes s sub = true
  <-> exists pre post, s = (pre ++ sub ++ post)%string.
Proof.
  induction s as [|c s IH].
  - cbn [JS.includes]. rewrite orb_false_r, startsWith_iff. split.
    + intros [post E]. exists "", post. exact E.
    + intros (pre & post & E). destruct pre; [eauto|discriminate].
  - rewrite includes_cons, orb_true_iff, startsWith_iff, IH. split.
    + intros [[post E]|(pre & post & E)].
      * exists "", post. exact E.
      * exists (String c pre), post. simpl. rewrite E. reflexivity.
    + intros (pre & post & E). destruct pre as [|d pre]; simpl in E.
      * left. eauto.
      * right. injection E as _ E. eauto.
Qed.

Lemma includes_extend (pre s post sub : string) :
  JS.includes s sub = true -> JS.includes (pre ++ s ++ post)%string sub = true.
Proof.
  rewrite !includes_iff. intros (a & b & ->).
  exists (pre ++ a)%string, (b ++ post)%string.
  rewrite !string_append_assoc. reflexivity.
Qed.

Lemma includes_trans (s mid sub : string) :
  JS.includes s mid = true -> JS.includes mid sub = true ->
  JS.includes s sub = true.
Proof.
  intros H1 H2. apply includes_iff in H1. destruct H1 as (pre & post & ->).
  apply includes_extend. exact H2.
Qed.

Lemma includes_refl (s : string) : JS.includes s s = true.
Proof. apply includes_iff. exists "", "". simpl. rewrite string_append_nil_r. reflexivity. Qed.

(** Trimming keeps a substring of the text. *)
Lemma trimStart_suffix (s : string) :
  exists pre, s = (pre ++ JS.trimStart s)%string.
Proof.
  induction s as [|c s [pre IH]]; [exists ""; reflexivity|].
  cbn [JS.trimStart]. destruct (JS.isWhiteSpace c).
  - exists (String c pre). simpl. rewrite <- IH. reflexivity.
  - exists "". reflexivity.
Qed.

Lemma trimEnd_prefix (s : string) :
  exists post, s = (JS.trimEnd s ++ post)%string.
Proof.
  induction s as [|c s [post IH]]; [exists ""; reflexivity|].
  cbn [JS.trimEnd]. destruct (JS.trimEnd s) as [|d t] eqn:E.
  - destruct (JS.isWhiteSpace c).
    + exists (String c s). reflexivity.
    + exists post. simpl in *. rewrite <- IH. reflexivity.
  - exists post. simpl in *. rewrite <- IH. reflexivity.
Qed.

Lemma includes_trim (s : string) : JS.includes s (JS.trim s) = true.
Proof.
  apply includes_iff. unfold JS.trim.
  destruct (trimStart_suffix s) as [pre E].
  destruct (trimEnd_prefix (JS.trimStart s)) as [post E'].
  exists pre, post. rewrite <- E'. exact E.
Qed.

Lemma trimStart_head (s : string) : head_ok (JS.trimStart s) = true.
Proof.
  induction s as [|c s IH]; [reflexivity|]. cbn [JS.trimStart].
  destruct (JS.isWhiteSpace c) eqn:E; [exact IH|]. simpl. rewrite E. reflexivity.
Qed.

Lemma trimStart_fixed (s : string) :
  head_ok s = true -> JS.trimStart s = s.
Proof.
  destruct s as [|c s]; [reflexivity|]. simpl.
  destruct (JS.isWhiteSpace c); [discriminate | reflexivity].
Qed.

Lemma trimEnd_head (s : string) :
  head_ok s = true -> head_ok (JS.trimEnd s) = true.
Proof.
  destruct s as [|c s]; [reflexivity|]. cbn [JS.trimEnd head_ok].
  intros H. destruct (JS.trimEnd s); [|exact H].
  destruct (JS.isWhiteSpace c) eqn:E; [discriminate|].
  simpl. rewrite E. reflexivity.
Qed.

Lemma trimEnd_cons (c : ascii) (s : string) :
  JS.trimEnd (String c s)
  = match JS.trimEnd s with
    | EmptyString =>
        if JS.isWhiteSpace c then EmptyString else String c EmptyString
    | t => String c t
    end.
Proof. reflexivity. Qed.

Lemma trimEnd_idem (s : string) : JS.trimEnd (JS.trimEnd s) = JS.trimEnd s.
Proof.
  induction s as [|c s IH]; [reflexivity|]. rewrite trimEnd_cons.
  destruct (JS.trimEnd s) as [|d t] eqn:E.
  - destruct (JS.isWhiteSpace c) eqn:Ec; [reflexivity|].
    rewrite trimEnd_cons. simpl. rewrite Ec. reflexivity.
  - rewrite trimEnd_cons, IH. reflexivity.
Qed.

Lemma trim_idem (s : string) : JS.trim (JS.trim s) = JS.trim s.
Proof.
  unfold JS.trim.
  rewrite (trimStart_fixed (JS.trimEnd (JS.trimStart s))).
  - apply trimEnd_idem.
  - apply trimEnd_head, trimStart_head.
Qed.

(** ** Findings and their rules *)

Lemma in_call_flow_findings (t : Threat.t) (source : string) (f : Finding.t) :
  In f (call_flow_findings t source)
  <-> exists p callPattern,
        Threat.pattern t = Some p
        /\ Pattern.function_calls p = Some callPattern
        /\ activated source callPattern = true
        /\ flow_missing p source <> []
        /\ f = Finding.mk (Threat.id t) (Threat.severity t)
                 (LineText "Multiple") "Call Pattern"
                 (JS.join " + " callPattern) (flow_missing p source)
                 (Threat.recommendation t) (Threat.fix_ t)
                 (JS.or_default (Threat.exploit_example t) "Unknown")
                 (JS.or_default (Threat.cve_reference t) "None").
Proof.
  unfold call_flow_findings.
  destruct (Threat.pattern t) as [p|] eqn:Ep;
    [|split; [intros [] | intros (? & ? & H & _); discriminate]].
  destruct (Pattern.function_calls p) as [cp|] eqn:Ec.
  - destruct (activated source cp) eqn:Ea.
    + destruct (flow_missing p source) as [|m ms] eqn:Em; simpl.
      * split; [intros []|].
        intros (p' & cp' & Hp & _ & _ & Hne & _).
        injection Hp as <-. rewrite Em in Hne. congruence.
      * split.
        -- intros [<-|[]]. exists p, cp. rewrite Em.
           repeat split; auto. discriminate.
        -- intros (p' & cp' & Hp & Hc & _ & _ & ->).
           injection Hp as <-. rewrite Ec in Hc. injection Hc as <-.
           rewrite Em. left; reflexivity.
    + split; [intros []|].
      intros (p' & cp' & Hp & Hc & Ha & _).
      injection Hp as <-. rewrite Ec in Hc. injection Hc as <-. congruence.
  - split; [intros []|].
    intros (p' & cp' & Hp & Hc & _). injection Hp as <-. congruence.
Qed.

Lemma in_scan (threats : list Threat.t) (source : string) (f : Finding.t) :
  In f (scan threats source)
  <-> exists t, In t threats
                /\ (In f (function_findings t (source_lines source))
                    \/ In f (call_flow_findings t source)).
Proof.
  unfold scan. rewrite in_flat_map. split.
  - intros (t & Ht & H). apply in_app_or in H. eauto.
  - intros (t & Ht & H). exists t. split; [assumption|].
    apply in_or_app. exact H.
Qed.

Lemma or_default_truthy (x : option string) (dflt : string) :
  JS.truthy dflt = true -> JS.truthy (JS.or_default x dflt) = true.
Proof.
  intros H. unfold JS.or_default. destruct x as [s|]; [|exact H].
  destruct (JS.truthy s) eqn:E; [exact E | exact H].
Qed.

(** X1.  Every finding of a scan is the finding of a rule of the catalog: it
    carries the id, severity, recommendation and fix of that rule, its
    provenance fields are never empty (they default to [Unknown] and
    [None]), it lists at least one missing check, and every check it lists
    is declared by the rule. *)
Theorem X1_finding_of_catalog_rule (threats : list Threat.t)
    (source : string) (f : Finding.t) :
  In f (scan threats source) ->
  exists t p,
    In t threats /\ Threat.pattern t = Some p
    /\ Finding.id f = Threat.id t
    /\ Finding.severity f = Threat.severity t
    /\ Finding.recommendation f = Threat.recommendation t
    /\ Finding.fix_ f = Threat.fix_ t
    /\ Finding.exploit_example f
       = JS.or_default (Threat.exploit_example t) "Unknown"
    /\ Finding.cve_reference f = JS.or_default (Threat.cve_reference t) "None"
    /\ Finding.exploit_example f <> ""
    /\ Finding.cve_reference f <> ""
    /\ Finding.missing_checks f <> []
    /\ (forall check, In check (Finding.missing_checks f) ->
                      In check (declared_checks p)).
Proof.
  intros Hin. apply in_scan in Hin. destruct Hin as (t & Ht & [H|H]).
  - apply in_function_findings in H.
    destruct H as (p & fname & idx & ln & Hp & _ & _ & _ & _ & Hne & ->).
    exists t, p. cbn [Finding.id Finding.severity Finding.recommendation
      Finding.fix_ Finding.exploit_example Finding.cve_reference
      Finding.missing_checks].
    repeat split; try assumption; try reflexivity.
    + intros E. pose proof (or_default_truthy (Threat.exploit_example t)
        "Unknown" eq_refl) as T. rewrite E in T. discriminate.
    + intros E. pose proof (or_default_truthy (Threat.cve_reference t)
        "None" eq_refl) as T. rewrite E in T. discriminate.
    + intros check Hc. apply in_line_missing in Hc. tauto.
  - apply in_call_flow_findings in H.
    destruct H as (p & cp & Hp & _ & _ & Hne & ->).
    exists t, p. cbn [Finding.id Finding.severity Finding.recommendation
      Finding.fix_ Finding.exploit_example Finding.cve_reference
      Finding.missing_checks].
    repeat split; try assumption; try reflexivity.
    + intros E. pose proof (or_default_truthy (Threat.exploit_example t)
        "Unknown" eq_refl) as T. rewrite E in T. discriminate.
    + intros E. pose proof (or_default_truthy (Threat.cve_reference t)
        "None" eq_refl) as T. rewrite E in T. discriminate.
    + intros check Hc. apply in_flow_missing in Hc. tauto.
Qed.

(** X2.  The findings of a catalog are those of its rules, rule after rule
    in the order of the catalog: scanning the concatenation of two catalogs
    gives the findings of the first followed by those of the second, nothing
    is merged or dropped, and a rule without pattern contributes nothing. *)
Theorem X2_scan_catalog_order (ts1 ts2 : list Threat.t) (source : string) :
  scan (ts1 ++ ts2) source = scan ts1 source ++ scan ts2 source
  /\ List.length (scan (ts1 ++ ts2) source)
     = List.length (scan ts1 source) + List.length (scan ts2 source)
  /\ (forall t, Threat.pattern t = None ->
        scan (ts1 ++ t :: ts2) source = scan (ts1 ++ ts2) source).
Proof.
  assert (E : forall a b, scan (a ++ b) source = scan a source ++ scan b source).
  { intros a b. unfold scan. apply flat_map_app. }
  split; [apply E|]. split; [rewrite E; apply length_app|].
  intros t Hp. rewrite !E. f_equal.
  change (t :: ts2) with ([t] ++ ts2). rewrite E.
  unfold scan at 1. simpl. unfold function_findings, call_flow_findings.
  rewrite Hp. reflexivity.
Qed.

(** ** Order and position of the function-keyed findings *)

Lemma match_line_numbers (t : Threat.t) (p : Pattern.t) (fname : string)
    (lines : list string) (ln : string) (idx : nat) :
  Forall (fun f => Finding.line f = LineNumber (idx + 1))
         (match_line t p fname lines ln idx)
  /\ List.length (match_line t p fname lines ln idx) <= 1.
Proof.
  unfold match_line. destruct (JS.includes ln fname); [|split; [constructor | simpl; lia]].
  destruct (0 <? _)%nat; split; simpl; try lia; repeat constructor.
Qed.

Lemma forEach_line_sorted (t : Threat.t) (p : Pattern.t) (fname : string)
    (lines rest : list string) (idx : nat) :
  StronglySorted lt (map line_number (forEach_line t p fname lines rest idx))
  /\ Forall (fun f => exists n, Finding.line f = LineNumber n
                                /\ idx < n <= idx + List.length rest)
            (forEach_line t p fname lines rest idx)
  /\ List.length (forEach_line t p fname lines rest idx) <= List.length rest.
Proof.
  revert idx. induction rest as [|ln rest IH]; intros idx; simpl.
  - repeat split; constructor.
  - destruct (IH (S idx)) as (Hs & Hb & Hl).
    destruct (match_line_numbers t p fname lines ln idx) as [Hm Hm1].
    split; [|split].
    + destruct (match_line t p fname lines ln idx) as [|f [|g l]];
        simpl in *; try lia; [exact Hs|].
      constructor; [exact Hs|].
      inversion Hm as [|? ? Hf _]; subst.
      apply Forall_map. apply Forall_impl with (2 := Hb).
      intros g (n & Hg & Hn). unfold line_number. rewrite Hf, Hg. lia.
    + apply Forall_app. split.
      * apply Forall_impl with (2 := Hm). intros f Hf.
        exists (idx + 1). split; [assumption | lia].
      * apply Forall_impl with (2 := Hb). intros f (n & Hf & Hn).
        exists n. split; [assumption | lia].
    + rewrite length_app. lia.
Qed.

(** X3.  The function-keyed findings of one rule come in line order: their
    line numbers are strictly increasing, each between 1 and the number of
    scanned lines.  So a rule has at most one function-keyed finding per
    line, whatever the number of occurrences of the name on the line. *)
Theorem X3_line_order (t : Threat.t) (lines : list string) :
  StronglySorted lt (map line_number (function_findings t lines))
  /\ Forall (fun f => exists n, Finding.line f = LineNumber n
                                /\ 1 <= n <= List.length lines)
            (function_findings t lines)
  /\ List.length (function_findings t lines) <= List.length lines.
Proof.
  assert (Hnil :
    StronglySorted lt (map line_number [])
    /\ Forall (fun f => exists n, Finding.line f = LineNumber n
                                  /\ 1 <= n <= List.length lines) []
    /\ @List.length Finding.t [] <= List.length lines).
  { split; [constructor|]. split; [constructor | simpl; lia]. }
  unfold function_findings.
  destruct (Threat.pattern t) as [p|]; [|exact Hnil].
  destruct (Pattern.function_name p) as [fname|]; [|exact Hnil].
  destruct (JS.truthy fname); [|exact Hnil].
  destruct (forEach_line_sorted t p fname lines lines 0) as (Hs & Hb & Hl).
  split; [exact Hs|]. split; [|exact Hl].
  apply Forall_impl with (2 := Hb). intros f (n & Hf & Hn).
  exists n. split; [assumption | lia].
Qed.

(** ** Lines and snippets are parts of the source *)

Lemma split_lines_head_prefix (s x : string) (rest : list string) :
  JS.split_lines s = x :: rest -> exists post, s = (x ++ post)%string.
Proof.
  revert x rest. induction s as [|c s IH]; intros x rest; cbn [JS.split_lines].
  - intros [= <- <-]. exists "". reflexivity.
  - destruct (Ascii.eqb c JS.LF).
    + intros [= <- <-]. exists (String c s). reflexivity.
    + destruct (JS.split_lines s) as [|y r] eqn:E.
      * intros [= <- <-]. destruct (split_lines_nonempty s E).
      * intros [= <- <-]. destruct (IH y r eq_refl) as [post ->].
        exists post. reflexivity.
Qed.

Lemma includes_cons_r (c : ascii) (s sub : string) :
  JS.includes s sub = true -> JS.includes (String c s) sub = true.
Proof.
  intros H. apply (includes_extend (String c "") s "" sub) in H.
  simpl in H. rewrite string_append_nil_r in H. exact H.
Qed.

(** Every line of a source is a part of it. *)
Lemma line_in_source (s ln : string) :
  In ln (JS.split_lines s) -> JS.includes s ln = true.
Proof.
  revert ln. induction s as [|c s IH]; intros ln; cbn [JS.split_lines].
  - intros [<-|[]]. reflexivity.
  - destruct (Ascii.eqb c JS.LF).
    + intros [<-|H]; [apply includes_iff; exists "", (String c s); reflexivity|].
      apply includes_cons_r, IH, H.
    + destruct (JS.split_lines s) as [|y r] eqn:E.
      * destruct (split_lines_nonempty s E).
      * intros [<-|H].
        -- destruct (split_lines_head_prefix s y r E) as [post ->].
           apply includes_iff. exists "", post. reflexivity.
        -- apply includes_cons_r, IH. right. exact H.
Qed.

(** X4.  A function-keyed finding quotes the source: its snippet is trimmed
    (trimming it again changes nothing), occurs in the source, and does not
    start with a comment marker; its [function] field is the function name
    of the rule, which occurs in the source. *)
Theorem X4_snippet_of_source (t : Threat.t) (source : string)
    (f : Finding.t) :
  In f (function_findings t (source_lines source)) ->
  JS.trim (Finding.snippet f) = Finding.snippet f
  /\ JS.includes source (Finding.snippet f) = true
  /\ JS.startsWith (Finding.snippet f) "//" = false
  /\ (exists p, Threat.pattern t = Some p
                /\ Pattern.function_name p = Some (Finding.function f))
  /\ JS.includes source (Finding.function f) = true.
Proof.
  intros Hin. apply in_function_findings in Hin.
  destruct Hin as (p & fname & idx & ln & Hp & Hf & _ & Hn & Hi & _ & ->).
  cbn [Finding.snippet Finding.function].
  apply nth_error_In in Hn.
  destruct (source_lines_kept source ln Hn) as [Hl Hc].
  pose proof (line_in_source source ln Hl) as Hs.
  split; [apply trim_idem|]. split.
  { apply includes_trans with (mid := ln); [exact Hs | apply includes_trim]. }
  split; [rewrite <- is_comment_line_eq; exact Hc|].
  split; [eauto|].
  apply includes_trans with (mid := ln); assumption.
Qed.

(** ** Evidence inside the window *)

Lemma join_includes (sep l : string) (ws : list string) :
  In l ws -> JS.includes (JS.join sep ws) l = true.
Proof.
  induction ws as [|x ws IH]; [intros []|].
  destruct ws as [|y ws].
  - intros [<-|[]]. apply includes_refl.
  - change (JS.join sep (x :: y :: ws))
      with (x ++ sep ++ JS.join sep (y :: ws))%string.
    intros [<-|H].
    + apply includes_iff. exists "", (sep ++ JS.join sep (y :: ws))%string.
      reflexivity.
    + apply (includes_extend (x ++ sep) (JS.join sep (y :: ws)) "" l) in IH;
        [|exact H].
      rewrite string_append_nil_r, string_append_assoc in IH. exact IH.
Qed.

Lemma window_line (lines : list string) (idx i : nat) (l : string) :
  idx - 5 <= i <= idx + 9 -> nth_error lines i = Some l ->
  JS.includes (context lines idx) l = true.
Proof.
  intros Hi Hn. unfold context. rewrite window_slice.
  apply join_includes. apply nth_error_In with (n := i - (idx - 5)).
  rewrite nth_error_firstn, nth_error_skipn.
  destruct (Nat.ltb_spec (i - (idx - 5)) (idx + 10 - (idx - 5))); [|lia].
  rewrite <- Hn. f_equal. lia.
Qed.

(** X5.  Evidence inside the window always counts: when a scanned line at
    most 5 before or 9 after the match -- the matched line itself included --
    contains a literal of a check kind, that check is not reported missing
    for the match. *)
Theorem X5_window_evidence (p : Pattern.t) (lines : list string)
    (idx i : nat) (l check lit : string) :
  idx - 5 <= i <= idx + 9 ->
  nth_error lines i = Some l ->
  In lit (evidence check) ->
  JS.includes l lit = true ->
  ~ In check (line_missing p (context lines idx)).
Proof.
  intros Hi Hn Hlit Hinc Hmiss.
  apply in_line_missing in Hmiss. destruct Hmiss as (_ & _ & He).
  specialize (He lit Hlit).
  rewrite (includes_trans _ l lit (window_line lines idx i l Hi Hn) Hinc) in He.
  discriminate.
Qed.

(** C8, as stated, fails on the extent of the window: the line ten lines
    after the match holds the evidence [signer::], the stated window contains
    it, and the engine still reports [signer_check] missing. *)
Lemma C8_counterexample :
  nth_error (source_lines far_evidence_source) 10
    = Some "  let who = signer::address_of(account);"
  /\ JS.includes (spec_context (source_lines far_evidence_source) 0) "signer::"
     = true
  /\ map (fun f => (Finding.line f, Finding.missing_checks f))
       (function_findings (open_mint_function "high" "r" "f" None None)
          (source_lines far_evidence_source))
     = [(LineNumber 1, ["signer_check"])].
Proof. vm_compute. repeat split. Qed.

(** C8, amended.  A function-keyed finding reports the 1-based position of
    its line in the comment-filtered sequence: when the line is line [j + 1]
    of the source and [k] comment lines precede it, the finding reports
    [j + 1 - k].  Its missing checks are those of the context taken in the
    filtered sequence.  That context is made of the filtered lines at the
    indices 5 before through 9 after the match: every one of these lines is
    part of it, so that a literal on any of them -- the ninth line after the
    match included -- keeps its check out of the finding, and the lines
    outside that range have no effect on it. *)
Theorem C8_filtered_positions (t : Threat.t) (source : string)
    (f : Finding.t) :
  In f (function_findings t (source_lines source)) ->
  exists p j ln,
    let k := List.length
               (filter is_comment_line (firstn j (JS.split_lines source))) in
    let idx := j - k in
    Threat.pattern t = Some p
    /\ nth_error (JS.split_lines source) j = Some ln
    /\ is_comment_line ln = false
    /\ nth_error (source_lines source) idx = Some ln
    /\ Finding.line f = LineNumber (j + 1 - k)
    /\ Finding.line f = LineNumber (idx + 1)
    /\ Finding.snippet f = JS.trim ln
    /\ Finding.missing_checks f
       = line_missing p (context (source_lines source) idx)
    /\ (forall lines',
          (forall i, idx - 5 <= i <= idx + 9 ->
                     nth_error lines' i = nth_error (source_lines source) i) ->
          line_missing p (context lines' idx) = Finding.missing_checks f)
    /\ context (source_lines source) idx
       = JS.join (String JS.LF "")
           (firstn (idx + 10 - (idx - 5))
                   (skipn (idx - 5) (source_lines source)))
    /\ (forall i l,
          idx - 5 <= i <= idx + 9 ->
          nth_error (source_lines source) i = Some l ->
          JS.includes (context (source_lines source) idx) l = true)
    /\ (forall i l check lit,
          idx - 5 <= i <= idx + 9 ->
          nth_error (source_lines source) i = Some l ->
          In lit (evidence check) ->
          JS.includes l lit = true ->
          ~ In check (Finding.missing_checks f)).
Proof.
  intros Hin. apply in_function_findings in Hin.
  destruct Hin as (p & fname & idx & ln & Hp & _ & _ & Hn & _ & _ & ->).
  pose proof Hn as Hn'. rewrite source_lines_filter in Hn'.
  apply nth_error_filter in Hn'. destruct Hn' as (j & Hj & Hk & Hidx).
  assert (Hlen : j <= List.length (JS.split_lines source)).
  { apply Nat.lt_le_incl, nth_error_Some. congruence. }
  rewrite (kept_index _ _ _ Hlen) in Hidx.
  assert (Ef : filter (fun x => negb (negb (is_comment_line x)))
                 (firstn j (JS.split_lines source))
               = filter is_comment_line (firstn j (JS.split_lines source))).
  { apply filter_ext. intros x. apply negb_involutive. }
  rewrite Ef in Hidx.
  assert (Hkj : List.length
                  (filter is_comment_line (firstn j (JS.split_lines source)))
                <= j).
  { pose proof (filter_length is_comment_line
                  (firstn j (JS.split_lines source))) as E.
    rewrite length_firstn, Nat.min_l in E by assumption. lia. }
  exists p, j, ln. cbv zeta. rewrite <- Hidx. cbn [Finding.line
    Finding.snippet Finding.missing_checks].
  split; [exact Hp|]. split; [exact Hj|].
  split; [destruct (is_comment_line ln); [discriminate | reflexivity]|].
  split; [exact Hn|]. split; [f_equal; lia|]. split; [reflexivity|].
  split; [reflexivity|]. split; [reflexivity|].
  split.
  { intros lines' H. f_equal. apply context_window. exact H. }
  split.
  { unfold context. rewrite window_slice. reflexivity. }
  split.
  { intros i l Hi Hl. apply (window_line _ idx i l Hi Hl). }
  intros i l check lit Hi Hl Hlit Hinc Hmiss.
  apply in_line_missing in Hmiss. destruct Hmiss as (_ & _ & He).
  specialize (He lit Hlit).
  rewrite (includes_trans _ l lit
             (window_line (source_lines source) idx i l Hi Hl) Hinc) in He.
  discriminate.
Qed.

Lemma C8_filtered_positions_witness :
  exists p j ln,
    let k := List.length
               (filter is_comment_line
                  (firstn j (JS.split_lines commented_source))) in
    let idx := j - k in
    Threat.pattern (open_mint_function "high" "r" "f" None None) = Some p
    /\ nth_error (JS.split_lines commented_source) j = Some ln
    /\ is_comment_line ln = false
    /\ nth_error (source_lines commented_source) idx = Some ln
    /\ LineNumber 1 = LineNumber (j + 1 - k)
    /\ LineNumber 1 = LineNumber (idx + 1)
    /\ "public fun mint(amount: u64) {" = JS.trim ln
    /\ ["signer_check"]
       = line_missing p (context (source_lines commented_source) idx)
    /\ (forall lines',
          (forall i, idx - 5 <= i <= idx + 9 ->
                     nth_error lines' i
                     = nth_error (source_lines commented_source) i) ->
          line_missing p (context lines' idx) = ["signer_check"])
    /\ context (source_lines commented_source) idx
       = JS.join (String JS.LF "")
           (firstn (idx + 10 - (idx - 5))
                   (skipn (idx - 5) (source_lines commented_source)))
    /\ (forall i l,
          idx - 5 <= i <= idx + 9 ->
          nth_error (source_lines commented_source) i = Some l ->
          JS.includes (context (source_lines commented_source) idx) l = true)
    /\ (forall i l check lit,
          idx - 5 <= i <= idx + 9 ->
          nth_error (source_lines commented_source) i = Some l ->
          In lit (evidence check) ->
          JS.includes l lit = true ->
          ~ In check ["signer_check"]).
Proof.
  apply (C8_filtered_positions (open_mint_function "high" "r" "f" None None)
           commented_source
           (Finding.mk "open_mint_function" "high" (LineNumber 1) "mint"
              "public fun mint(amount: u64) {" ["signer_check"] "r" "f"
              "Unknown" "None")).
  vm_compute. left. reflexivity.
Defined.

(** The two ends of the window.  With the signer evidence nine lines after
    the match the check is found and nothing is reported; one line further
    it is reported. *)
Example window_reaches_nine_lines :
  function_findings (open_mint_function "high" "r" "f" None None)
    (source_lines
       (JS.join (String JS.LF "")
          ("public fun mint(account: &signer, amount: u64) {"
             :: repeat "  step();" 8
             ++ ["  let who = signer::address_of(account);"])))
  = []
  /\ List.length
       (function_findings (open_mint_function "high" "r" "f" None None)
          (source_lines far_evidence_source))
     = 1.
Proof. vm_compute. split; reflexivity. Qed.

(** ** Growing the source *)

Lemma filter_length_mono {A : Type} (f g : A -> bool) (l : list A) :
  (forall x, f x = true -> g x = true) ->
  List.length (filter f l) <= List.length (filter g l).
Proof.
  intros H. induction l as [|a l IH]; simpl; [lia|].
  destruct (f a) eqn:Ef.
  - rewrite (H a Ef). simpl. lia.
  - destruct (g a); simpl; lia.
Qed.

Lemma ge_times_0_7_mono (found found' n : nat) :
  found <= found' ->
  Binary64.ge_times_0_7 found n = true ->
  Binary64.ge_times_0_7 found' n = true.
Proof.
  unfold Binary64.ge_times_0_7, Binary64.ge_mul_0_7.
  rewrite !Z.leb_le. intros H. nia.
Qed.

(** X6.  Text added around a source never removes a found call: the counter
    [foundCalls] can only grow, on every pattern, and a call-flow rule that
    is activated on a source stays activated on every source that contains
    it. *)
Theorem X6_activation_grows (pre source post : string)
    (callPattern : list string) :
  foundCalls source callPattern
  <= foundCalls (pre ++ source ++ post)%string callPattern
  /\ (activated source callPattern = true ->
      activated (pre ++ source ++ post)%string callPattern = true).
Proof.
  assert (H : foundCalls source callPattern
              <= foundCalls (pre ++ source ++ post)%string callPattern).
  { unfold foundCalls. apply filter_length_mono.
    intros call. apply includes_extend. }
  split; [exact H|].
  unfold activated. apply ge_times_0_7_mono. exact H.
Qed.

(** X7.  Text added around a source never makes the call-flow matcher miss a
    check it had found: the checks missing on the larger source are among
    those missing on the smaller one. *)
Theorem X7_missing_shrinks (p : Pattern.t) (pre source post : string) :
  incl (flow_missing p (pre ++ source ++ post)%string) (flow_missing p source).
Proof.
  intros check H. apply in_flow_missing in H. destruct H as [Hd [H1 H2]].
  apply in_flow_missing. split; [exact Hd|]. split.
  - destruct (JS.includes source (JS.replace_first "_" check)) eqn:E;
      [|reflexivity].
    rewrite (includes_extend pre source post _ E) in H1. discriminate.
  - destruct (JS.includes source check) eqn:E; [|reflexivity].
    rewrite (includes_extend pre source post _ E) in H2. discriminate.
Qed.

(** ** The threshold at its ends *)

Lemma activated_iff (source : string) (callPattern : list string) :
  (Z.of_nat (List.length callPattern) < 2 ^ 32)%Z ->
  activated source callPattern = true
  <-> 7 * List.length callPattern <= 10 * foundCalls source callPattern.
Proof.
  intros HN. unfold activated, Binary64.ge_times_0_7, Binary64.ge_mul_0_7.
  rewrite Z.leb_le, Binary64Facts.mul_0_7_le_iff by assumption. lia.
Qed.

Lemma filter_length_le {A : Type} (f : A -> bool) (l : list A) :
  List.length (filter f l) <= List.length l.
Proof. induction l as [|a l IH]; simpl; [lia|]. destruct (f a); simpl; lia. Qed.

Lemma filter_length_all {A : Type} (f : A -> bool) (l : list A) :
  List.length (filter f l) = List.length l <-> Forall (fun x => f x = true) l.
Proof.
  induction l as [|a l IH]; simpl.
  - split; [constructor | reflexivity].
  - pose proof (filter_length_le f l). destruct (f a) eqn:E; simpl.
    + split.
      * intros H1. constructor; [exact E | apply IH; lia].
      * intros H1. inversion H1; subst. f_equal. apply IH. assumption.
    + split; [lia|]. intros H1. inversion H1; subst. congruence.
Qed.

Lemma filter_length_none {A : Type} (f : A -> bool) (l : list A) :
  Forall (fun x => f x = false) l -> List.length (filter f l) = 0.
Proof.
  induction 1 as [|a l E _ IH]; simpl; [reflexivity|]. rewrite E. exact IH.
Qed.

(** X8.  The 70% threshold at its ends, for a pattern of [N < 2^32] tokens:
    an empty pattern is activated on every source; a pattern all of whose
    tokens occur in the source is activated; a non-empty pattern none of
    whose tokens occurs is not; and up to three tokens the threshold asks
    for all of them. *)
Theorem X8_threshold_ends (source : string) (callPattern : list string) :
  (Z.of_nat (List.length callPattern) < 2 ^ 32)%Z ->
  (callPattern = [] -> activated source callPattern = true)
  /\ (Forall (fun call => JS.includes source call = true) callPattern ->
      activated source callPattern = true)
  /\ (callPattern <> [] ->
      Forall (fun call => JS.includes source call = false) callPattern ->
      activated source callPattern = false)
  /\ (List.length callPattern <= 3 ->
      (activated source callPattern = true
       <-> Forall (fun call => JS.includes source call = true) callPattern)).
Proof.
  intros HN. pose proof (activated_iff source callPattern HN) as A.
  pose proof (filter_length_le (fun call => JS.includes source call) callPattern)
    as Hle.
  pose proof (filter_length_all (fun call => JS.includes source call) callPattern)
    as Hall.
  fold (foundCalls source callPattern) in Hle, Hall.
  split; [|split; [|split]].
  - intros ->. apply A. simpl. lia.
  - intros H. apply A. apply Hall in H. lia.
  - intros Hne H.
    pose proof (filter_length_none (fun call => JS.includes source call)
                  callPattern H) as E.
    fold (foundCalls source callPattern) in E.
    destruct (activated source callPattern); [|reflexivity].
    pose proof (proj1 A eq_refl) as Ea.
    destruct callPattern; [congruence|]. simpl in Ea. lia.
  - intros H3. rewrite A, <- Hall. lia.
Qed.

(** ** More on the scorer *)

Lemma count_severity_perm (sev : string) (fs fs' : list Finding.t) :
  Permutation fs fs' -> count_severity sev fs = count_severity sev fs'.
Proof.
  unfold count_severity.
  induction 1 as [|f l l' _ IH|f g l|l l' l'' _ IH1 _ IH2]; simpl.
  - reflexivity.
  - destruct (String.eqb (Finding.severity f) sev); simpl; rewrite IH; reflexivity.
  - destruct (String.eqb (Finding.severity f) sev);
      destruct (String.eqb (Finding.severity g) sev); reflexivity.
  - rewrite IH1. exact IH2.
Qed.

(** The verdict as a function of the three counters. *)
Lemma score_fields (fs : list Finding.t) :
  let c := count_severity "critical" fs in
  let h := count_severity "high" fs in
  let m := count_severity "medium" fs in
  securityScore (score fs)
  = Z.max 0 (100 - Z.of_nat c * 40 - Z.of_nat h * 20 - Z.of_nat m * 10)%Z
  /\ deployment_ready (score fs) = ((c =? 0)%nat && (h <=? 1)%nat)
  /\ risk_level (score fs)
     = (if (0 <? c)%nat then "CRITICAL" else if (2 <? h)%nat then "HIGH"
        else if (3 <? m)%nat then "MEDIUM" else "LOW").
Proof. repeat split. Qed.

(** X9.  The verdict does not depend on the order of the findings: two
    lists with the same findings in any order get the same counters, score,
    risk level and readiness. *)
Theorem X9_score_order_free (fs fs' : list Finding.t) :
  Permutation fs fs' ->
  criticalIssues (score fs) = criticalIssues (score fs')
  /\ highIssues (score fs) = highIssues (score fs')
  /\ mediumIssues (score fs) = mediumIssues (score fs')
  /\ securityScore (score fs) = securityScore (score fs')
  /\ risk_level (score fs) = risk_level (score fs')
  /\ deployment_ready (score fs) = deployment_ready (score fs').
Proof.
  intros P. unfold score.
  cbn [criticalIssues highIssues mediumIssues securityScore risk_level
       deployment_ready].
  rewrite !(count_severity_perm _ fs fs' P). repeat split.
Qed.

(** X10.  More findings never improve the verdict: appending findings
    cannot raise the score, cannot make a list ready that was not, and
    cannot leave the level CRITICAL. *)
Theorem X10_score_antitone (fs gs : list Finding.t) :
  (securityScore (score (fs ++ gs)) <= securityScore (score fs))%Z
  /\ (deployment_ready (score (fs ++ gs)) = true ->
      deployment_ready (score fs) = true)
  /\ (risk_level (score fs) = "CRITICAL" ->
      risk_level (score (fs ++ gs)) = "CRITICAL").
Proof.
  destruct (score_fields fs) as (Es & Ed & Er).
  destruct (score_fields (fs ++ gs)) as (Es' & Ed' & Er').
  rewrite Es, Es', Ed, Ed', Er, Er'. rewrite !count_severity_app.
  set (c := count_severity "critical" fs). set (h := count_severity "high" fs).
  set (m := count_severity "medium" fs).
  set (c' := count_severity "critical" gs). set (h' := count_severity "high" gs).
  set (m' := count_severity "medium" gs).
  split; [lia|]. split.
  - rewrite !andb_true_iff, !Nat.eqb_eq, !Nat.leb_le. lia.
  - destruct (Nat.ltb_spec 0 c) as [Hc|Hc].
    + intros _. destruct (Nat.ltb_spec 0 (c + c')); [reflexivity | lia].
    + destruct (2 <? h)%nat; [discriminate|].
      destruct (3 <? m)%nat; discriminate.
Qed.

(** X11.  How the three parts of the verdict go together.  The score is a
    multiple of 10, and is 100 exactly when nothing critical, high or medium
    was found.  A score above 60 implies readiness; readiness excludes the
    levels CRITICAL and HIGH; but the level LOW does not imply readiness: it
    goes with a refusal exactly when there are two high findings (and no
    critical, at most three medium). *)
Theorem X11_verdict_coherence (fs : list Finding.t) :
  let r := score fs in
  (securityScore r mod 10 = 0)%Z
  /\ (securityScore r = 100%Z
      <-> criticalIssues r = 0 /\ highIssues r = 0 /\ mediumIssues r = 0)
  /\ ((60 < securityScore r)%Z -> deployment_ready r = true)
  /\ (deployment_ready r = true ->
      risk_level r = "MEDIUM" \/ risk_level r = "LOW")
  /\ (risk_level r = "LOW" /\ deployment_ready r = false
      <-> criticalIssues r = 0 /\ highIssues r = 2 /\ mediumIssues r <= 3).
Proof.
  intros r. subst r.
  destruct (score_fields fs) as (Es & Ed & Er). rewrite Es, Ed, Er.
  unfold score. cbn [criticalIssues highIssues mediumIssues].
  set (c := count_severity "critical" fs). set (h := count_severity "high" fs).
  set (m := count_severity "medium" fs). clearbody c h m.
  split; [|split; [|split; [|split]]].
  - destruct (Z.max_spec 0 (100 - Z.of_nat c * 40 - Z.of_nat h * 20
                            - Z.of_nat m * 10)) as [[_ ->]|[_ ->]].
    + replace (100 - Z.of_nat c * 40 - Z.of_nat h * 20 - Z.of_nat m * 10)%Z
        with ((10 - Z.of_nat c * 4 - Z.of_nat h * 2 - Z.of_nat m) * 10)%Z
        by lia.
      apply Z.mod_mul. lia.
    + reflexivity.
  - lia.
  - intros H. apply andb_true_intro.
    split; [apply Nat.eqb_eq | apply Nat.leb_le]; lia.
  - rewrite andb_true_iff, Nat.eqb_eq, Nat.leb_le. intros [Hc Hh].
    destruct (Nat.ltb_spec 0 c); [lia|].
    destruct (Nat.ltb_spec 2 h); [lia|].
    destruct (3 <? m)%nat; auto.
  - rewrite andb_false_iff, Nat.eqb_neq, Nat.leb_gt.
    destruct (Nat.ltb_spec 0 c).
    { split; [intros [Hlow _]; discriminate | lia]. }
    destruct (Nat.ltb_spec 2 h).
    { split; [intros [Hlow _]; discriminate | lia]. }
    destruct (Nat.ltb_spec 3 m).
    { split; [intros [Hlow _]; discriminate | lia]. }
    split; [lia|]. intros (Hc & Hh & Hm). split; [reflexivity | lia].
Qed.

(** ** The risk analyzers *)

(** X12.  [analyzeMEVRisks] scores 30 for a DEX word ([swap], [exchange])
    and 40 for an auction word ([auction], [bid]): the score is 0, 30, 40 or
    70, the list has one entry per family found, in that order, and the
    level is HIGH exactly when both families occur, MEDIUM when exactly one
    does, LOW when none does -- as on the empty source. *)
Theorem X12_mev_report (source : string) :
  let dex := JS.includes source "swap" || JS.includes source "exchange" in
  let auc := JS.includes source "auction" || JS.includes source "bid" in
  let r := analyzeMEVRisks source in
  MEV.mev_score r = (if dex then 30 else 0) + (if auc then 40 else 0)
  /\ MEV.risks r = (if dex then [arbitrage_opportunity] else [])
                   ++ (if auc then [frontrunning_risk] else [])
  /\ (MEV.risk_level r = "HIGH" <-> dex = true /\ auc = true)
  /\ (MEV.risk_level r = "MEDIUM" <-> dex <> auc)
  /\ (MEV.risk_level r = "LOW" <-> dex = false /\ auc = false)
  /\ (MEV.risk_level r = "LOW" <-> MEV.mev_score r = 0)
  /\ analyzeMEVRisks "" = MEV.mk [] 0 "LOW".
Proof.
  intros dex auc r. subst r. unfold analyzeMEVRisks.
  fold dex auc. clearbody dex auc.
  destruct dex, auc; cbn; repeat split;
    try reflexivity; try discriminate; try congruence;
    try (intros [? ?]; discriminate); try (intros H; exfalso; apply H; reflexivity).
Qed.

Lemma orb_includes_extend (pre source post a b : string) :
  JS.includes source a || JS.includes source b = true ->
  JS.includes (pre ++ source ++ post)%string a
  || JS.includes (pre ++ source ++ post)%string b = true.
Proof.
  rewrite !orb_true_iff.
  intros [H|H]; [left|right]; apply includes_extend; exact H.
Qed.

(** X13.  Text added around a source never lowers what the two analyzers
    report: every risk entry found on the source is found on the larger
    source, the economic level does not go down (LOW, MEDIUM, HIGH), and
    the MEV score does not decrease. *)
Theorem X13_analyzers_grow (pre source post : string) :
  let larger := (pre ++ source ++ post)%string in
  incl (Economic.risks (analyzeEconomicSecurity source))
       (Economic.risks (analyzeEconomicSecurity larger))
  /\ level_rank (Economic.risk_level (analyzeEconomicSecurity source))
     <= level_rank (Economic.risk_level (analyzeEconomicSecurity larger))
  /\ incl (MEV.risks (analyzeMEVRisks source))
          (MEV.risks (analyzeMEVRisks larger))
  /\ MEV.mev_score (analyzeMEVRisks source)
     <= MEV.mev_score (analyzeMEVRisks larger).
Proof.
  intros larger. subst larger.
  pose proof (orb_includes_extend pre source post "flash_" "borrow") as F.
  pose proof (orb_includes_extend pre source post "price" "oracle") as O.
  pose proof (orb_includes_extend pre source post "swap" "exchange") as D.
  pose proof (orb_includes_extend pre source post "auction" "bid") as A.
  unfold analyzeEconomicSecurity, analyzeMEVRisks.
  destruct (JS.includes source "flash_" || JS.includes source "borrow");
    [rewrite (F eq_refl)|clear F];
  (destruct (JS.includes source "price" || JS.includes source "oracle");
    [rewrite (O eq_refl)|clear O]);
  (destruct (JS.includes source "swap" || JS.includes source "exchange");
    [rewrite (D eq_refl)|clear D]);
  (destruct (JS.includes source "auction" || JS.includes source "bid");
    [rewrite (A eq_refl)|clear A]);
  repeat match goal with
         | |- context [JS.includes ?s ?a || JS.includes ?s ?b] =>
             destruct (JS.includes s a || JS.includes s b)
         end;
  cbn; repeat split; try lia;
    unfold incl; intros x Hx; cbn in Hx |- *; tauto.
Qed.

(** ** The handlers *)

Lemma count_of_bump (acc : list (string * nat)) (k k' : string) :
  count_of (bump acc k) k'
  = count_of acc k' + (if String.eqb k k' then 1 else 0).
Proof.
  induction acc as [|[k0 n] acc IH]; simpl.
  - destruct (String.eqb k k'); reflexivity.
  - destruct (String.eqb_spec k0 k) as [->|Hne]; simpl.
    + destruct (String.eqb k k'); lia.
    + destruct (String.eqb_spec k0 k') as [->|Hne'].
      * destruct (String.eqb_spec k k'); [congruence | lia].
      * exact IH.
Qed.

Lemma keys_bump (acc : list (string * nat)) (k : string) :
  map fst (bump acc k)
  = if existsb (String.eqb k) (map fst acc) then map fst acc
    else map fst acc ++ [k].
Proof.
  induction acc as [|[k0 n] acc IH]; simpl; [reflexivity|].
  rewrite (String.eqb_sym k k0).
  destruct (String.eqb k0 k); simpl; [reflexivity|].
  rewrite IH. destruct (existsb (String.eqb k) (map fst acc)); reflexivity.
Qed.

Lemma sum_bump (acc : list (string * nat)) (k : string) :
  list_sum (map snd (bump acc k)) = list_sum (map snd acc) + 1.
Proof.
  induction acc as [|[k0 n] acc IH]; simpl; [reflexivity|].
  destruct (String.eqb k0 k); simpl; lia.
Qed.

Lemma positive_bump (acc : list (string * nat)) (k : string) :
  Forall (fun kn => 1 <= snd kn) acc ->
  Forall (fun kn => 1 <= snd kn) (bump acc k).
Proof.
  induction 1 as [|[k0 n] acc H Hacc IH]; simpl; [repeat constructor|].
  destruct (String.eqb k0 k); constructor; simpl in *; auto; lia.
Qed.

Lemma nodup_bump (acc : list (string * nat)) (k : string) :
  NoDup (map fst acc) -> NoDup (map fst (bump acc k)).
Proof.
  intros H. rewrite keys_bump.
  destruct (existsb (String.eqb k) (map fst acc)) eqn:E; [exact H|].
  apply NoDup_app; [exact H | repeat constructor; intros [] |].
  intros x Hx [<-|[]].
  assert (existsb (String.eqb k) (map fst acc) = true); [|congruence].
  apply existsb_exists. exists k. split; [exact Hx | apply String.eqb_refl].
Qed.

Lemma fold_bump (fs : list Finding.t) (acc : list (string * nat)) :
  let out := fold_left (fun a f => bump a (Finding.severity f)) fs acc in
  (forall sev, count_of out sev = count_of acc sev + count_severity sev fs)
  /\ list_sum (map snd out) = list_sum (map snd acc) + List.length fs
  /\ (NoDup (map fst acc) -> NoDup (map fst out))
  /\ (Forall (fun kn => 1 <= snd kn) acc -> Forall (fun kn => 1 <= snd kn) out).
Proof.
  revert acc. induction fs as [|f fs IH]; intros acc; simpl.
  - split; [intros sev; unfold count_severity; simpl; lia|].
    split; [lia|]. split; trivial.
  - destruct (IH (bump acc (Finding.severity f))) as (Hc & Hs & Hn & Hp).
    repeat split.
    + intros sev. rewrite Hc, count_of_bump. unfold count_severity. simpl.
      destruct (String.eqb (Finding.severity f) sev); simpl; lia.
    + rewrite Hs, sum_bump. lia.
    + intros H. apply Hn, nodup_bump, H.
    + intros H. apply Hp, positive_bump, H.
Qed.

(** X14.  The severity summary of /api/analyze, for findings whose
    severities are those of the catalog: the count it gives for a severity is
    the number of findings of that severity (the counter of the scorer), the
    counts add up to the number of findings, every listed severity occurs at
    least once, and no severity is listed twice. *)
Theorem X14_by_severity_counts (fs : list Finding.t) :
  Forall (fun f => In (Finding.severity f) severities) fs ->
  (forall sev, count_of (by_severity fs) sev = count_severity sev fs)
  /\ count_of (by_severity fs) "critical" = criticalIssues (score fs)
  /\ list_sum (map snd (by_severity fs)) = List.length fs
  /\ Forall (fun kn => 1 <= snd kn) (by_severity fs)
  /\ NoDup (map fst (by_severity fs)).
Proof.
  intros _. destruct (fold_bump fs []) as (Hc & Hs & Hn & Hp).
  unfold by_severity. repeat split.
  - intros sev. rewrite Hc. reflexivity.
  - rewrite Hc. reflexivity.
  - rewrite Hs. reflexivity.
  - apply Hp. constructor.
  - apply Hn. constructor.
Qed.

Lemma requested_source_cases (rt : ServerRuntime) (move_source : Posted) :
  (move_source = PostedTruthy
   /\ requested_source rt move_source = inl (SourceOther, "raw_input"))
  \/ (exists message,
        no_source move_source /\ readDefaultMove rt = Thrown message
        /\ requested_source rt move_source
           = inr {| status := 500; body := read_error rt message |})
  \/ (exists source file,
        analysed rt move_source source file
        /\ requested_source rt move_source = inl (SourceText source, file)).
Proof.
  unfold requested_source, analysed, no_source, read_error.
  destruct move_source as [[|c s]| |].
  - destruct (readDefaultMove rt) as [text|message].
    + right; right. exists text, (DEFAULT_MOVE_PATH rt). auto 6.
    + right; left. exists message. auto.
  - right; right. exists (String c s), "raw_input". auto 6.
  - destruct (readDefaultMove rt) as [text|message].
    + right; right. exists text, (DEFAULT_MOVE_PATH rt). auto 6.
    + right; left. exists message. auto.
  - left. auto.
Qed.

Lemma requested_source_analysed (rt : ServerRuntime) (move_source : Posted)
    (source file : string) :
  analysed rt move_source source file ->
  requested_source rt move_source = inl (SourceText source, file).
Proof.
  unfold analysed, no_source, requested_source.
  intros [(Ht & -> & ->) | ([-> | ->] & Hr & ->)].
  - rewrite Ht. reflexivity.
  - rewrite Hr. reflexivity.
  - simpl. rewrite Hr. reflexivity.
Qed.

Lemma requested_source_unreadable (rt : ServerRuntime) (move_source : Posted)
    (message : string) :
  no_source move_source -> readDefaultMove rt = Thrown message ->
  requested_source rt move_source
  = inr {| status := 500; body := read_error rt message |}.
Proof.
  unfold no_source, requested_source, read_error.
  intros [-> | ->] Hr; simpl; rewrite Hr; reflexivity.
Qed.

Lemma scanMoveSource_value_throws (rt : Runtime) :
  exists e, scanMoveSource_value rt SourceOther = Thrown e.
Proof.
  unfold scanMoveSource_value. destruct (loadThreats rt); simpl; eauto.
Qed.


Lemma economic_level_high (source : string) :
  Economic.risk_level (analyzeEconomicSecurity source) = "HIGH"
  <-> JS.includes source "flash_" || JS.includes source "borrow" = true.
Proof.
  unfold analyzeEconomicSecurity.
  destruct (JS.includes source "flash_" || JS.includes source "borrow");
    destruct (JS.includes source "price" || JS.includes source "oracle");
    cbn; split; try reflexivity; discriminate.
Qed.

Lemma filter_nil_length {A : Type} (f : A -> bool) (l : list A) :
  List.length (filter f l) = 0 -> filter f l = [].
Proof. destruct (filter f l); [reflexivity | discriminate]. Qed.


(** ** extractCode *)

Lemma startsWith_append (a b p : string) :
  JS.startsWith a p = true -> JS.startsWith (a ++ b)%string p = true.
Proof.
  rewrite !startsWith_iff. intros [post ->]. exists (post ++ b)%string.
  apply string_append_assoc.
Qed.

Lemma capture_spec (s c : string) :
  Fence.capture s = Some c ->
  JS.includes c Fence.fence = false
  /\ exists post, s = (c ++ Fence.fence ++ post)%string.
Proof.
  revert c. induction s as [|x s IH]; intros c; cbn [Fence.capture].
  - destruct (JS.startsWith "" Fence.fence) eqn:E; [discriminate E | discriminate].
  - destruct (JS.startsWith (String x s) Fence.fence) eqn:E.
    + intros [= <-]. split; [reflexivity|].
      apply startsWith_iff in E. destruct E as [post E]. exists post. exact E.
    + destruct (Fence.capture s) as [c'|]; [|discriminate].
      intros [= <-]. destruct (IH c' eq_refl) as (Hn & post & ->).
      split; [|exists post; reflexivity].
      rewrite includes_cons, Hn, orb_false_r.
      destruct (JS.startsWith (String x c') Fence.fence) eqn:E'; [|reflexivity].
      apply (startsWith_append _ (Fence.fence ++ post)) in E'.
      simpl in E, E'. congruence.
Qed.

Lemma after_tag_spec (s c : string) :
  Fence.after_tag s = Some c ->
  JS.includes c Fence.fence = false
  /\ exists post, s = String JS.LF (c ++ Fence.fence ++ post)%string.
Proof.
  unfold Fence.after_tag. destruct s as [|x s]; [discriminate|].
  destruct (Ascii.eqb_spec x JS.LF) as [->|]; [|discriminate].
  intros H. destruct (capture_spec s c H) as (Hn & post & ->). eauto.
Qed.

Lemma startsWith_i_move (r : string) :
  Fence.startsWith_i r "move" = true ->
  exists tag r', r = (tag ++ r')%string /\ String.length tag = 4
                 /\ Fence.startsWith_i tag "move" = true
                 /\ Fence.drop 4 r = r'.
Proof.
  destruct r as [|a [|b [|c [|d r']]]]; cbn [Fence.startsWith_i];
    rewrite ?andb_false_r; try discriminate.
  intros H. exists (String a (String b (String c (String d "")))), r'.
  repeat split. cbn [Fence.startsWith_i].
  rewrite !andb_true_iff in *. tauto.
Qed.

Lemma match_here_spec (s c : string) :
  Fence.match_here s = Some c ->
  JS.includes c Fence.fence = false
  /\ exists tag post,
       move_tag tag
       /\ s = (Fence.fence ++ tag ++ String JS.LF (c ++ Fence.fence ++ post))%string.
Proof.
  unfold Fence.match_here.
  destruct (JS.startsWith s Fence.fence) eqn:E; [|discriminate].
  apply startsWith_iff in E. destruct E as [r ->].
  change (Fence.drop 3 (Fence.fence ++ r)%string) with r.
  destruct (Fence.startsWith_i r "move") eqn:Em.
  - destruct (startsWith_i_move r Em) as (tag & r' & -> & Hl & Ht & Hd).
    rewrite Hd.
    destruct (Fence.after_tag r') as [c'|] eqn:Ea.
    + intros [= <-]. destruct (after_tag_spec r' c' Ea) as (Hn & post & ->).
      split; [exact Hn|]. exists tag, post. split; [right; auto | reflexivity].
    + intros Ha. destruct (after_tag_spec _ c Ha) as (Hn & post & Eq).
      split; [exact Hn|]. exists "", post. split; [left; reflexivity|].
      simpl. rewrite Eq. reflexivity.
  - intros Ha. destruct (after_tag_spec r c Ha) as (Hn & post & ->).
    split; [exact Hn|]. exists "", post. split; [left; reflexivity | reflexivity].
Qed.

Lemma match_group_spec (s c : string) :
  Fence.match_group s = Some c ->
  JS.includes c Fence.fence = false
  /\ exists pre tag post,
       move_tag tag
       /\ s = (pre ++ Fence.fence ++ tag
                   ++ String JS.LF (c ++ Fence.fence ++ post))%string.
Proof.
  induction s as [|x s IH]; cbn [Fence.match_group].
  - destruct (Fence.match_here "") eqn:E; [|discriminate].
    intros [= ->]. destruct (match_here_spec _ _ E) as (Hn & tag & post & Ht & Eq).
    split; [exact Hn|]. exists "", tag, post. auto.
  - destruct (Fence.match_here (String x s)) eqn:E.
    + intros [= ->].
      destruct (match_here_spec _ _ E) as (Hn & tag & post & Ht & Eq).
      split; [exact Hn|]. exists "", tag, post. auto.
    + intros H. destruct (IH H) as (Hn & pre & tag & post & Ht & ->).
      split; [exact Hn|]. exists (String x pre), tag, post. auto.
Qed.

(** X17.  [extractCode] never invents text.  Its result is trimmed and
    occurs in the answer it is given; it is either the whole answer, trimmed,
    or the trimmed content of a fenced block of the answer: a non-empty text
    without fence, between an opening fence followed by nothing or by [move]
    (in any case) and a line feed, and the next fence. *)
Theorem X17_extractCode_sound (text : string) :
  JS.trim (extractCode text) = extractCode text
  /\ JS.includes text (extractCode text) = true
  /\ (extractCode text = JS.trim text
      \/ exists pre tag code post,
           text = (pre ++ Fence.fence ++ tag
                       ++ String JS.LF (code ++ Fence.fence ++ post))%string
           /\ move_tag tag
           /\ JS.includes code Fence.fence = false
           /\ code <> ""
           /\ extractCode text = JS.trim code).
Proof.
  unfold extractCode.
  destruct (Fence.match_group text) as [c|] eqn:E;
    [|split; [apply trim_idem | split; [apply includes_trim | left; reflexivity]]].
  destruct (JS.truthy c) eqn:Et;
    [|split; [apply trim_idem | split; [apply includes_trim | left; reflexivity]]].
  destruct (match_group_spec text c E) as (Hn & pre & tag & post & Ht & Eq).
  split; [apply trim_idem|]. split.
  - apply includes_trans with (mid := c); [|apply includes_trim].
    apply includes_iff.
    exists (pre ++ Fence.fence ++ tag ++ String JS.LF "")%string,
           (Fence.fence ++ post)%string.
    rewrite Eq, !string_append_assoc. reflexivity.
  - right. exists pre, tag, c, post. repeat split; try assumption.
    intros ->. discriminate.
Qed.

Lemma startsWith_no_backtick (x : ascii) (s : string) :
  Ascii.eqb x Fence.backtick = false ->
  JS.startsWith (String x s) Fence.fence = false.
Proof.
  intros H. unfold Fence.fence. cbn [JS.startsWith].
  rewrite Ascii.eqb_sym, H. reflexivity.
Qed.

Lemma match_group_skip (pre rest : string) :
  no_backtick pre = true ->
  Fence.match_group (pre ++ rest)%string = Fence.match_group rest.
Proof.
  induction pre as [|x pre IH]; [reflexivity|].
  cbn [no_backtick append]. rewrite andb_true_iff, negb_true_iff.
  intros [Hx Hp]. cbn [Fence.match_group]. unfold Fence.match_here.
  rewrite (startsWith_no_backtick x _ Hx). apply IH, Hp.
Qed.

Lemma capture_unfold (s : string) :
  Fence.capture s
  = if JS.startsWith s Fence.fence then Some ""
    else match s with
         | EmptyString => None
         | String c s' => option_map (String c) (Fence.capture s')
         end.
Proof. destruct s; reflexivity. Qed.

Lemma capture_code (code post : string) :
  no_backtick code = true ->
  Fence.capture (code ++ Fence.fence ++ post)%string = Some code.
Proof.
  induction code as [|x code IH].
  - intros _.
    assert (H : JS.startsWith (Fence.fence ++ post)%string Fence.fence = true)
      by (apply startsWith_iff; eauto).
    cbn [append]. rewrite capture_unfold, H. reflexivity.
  - cbn [no_backtick append]. rewrite andb_true_iff, negb_true_iff.
    intros [Hx Hc]. rewrite capture_unfold.
    rewrite (startsWith_no_backtick x _ Hx), (IH Hc). reflexivity.
Qed.

Lemma match_group_fence (s : string) :
  Fence.match_group (Fence.fence ++ s)%string
  = match Fence.match_here (Fence.fence ++ s)%string with
    | Some c => Some c
    | None => Fence.match_group (Fence.drop 1 (Fence.fence ++ s)%string)
    end.
Proof. reflexivity. Qed.

(** X18.  A fenced block is extracted.  When the answer opens its first
    fence after a text without backtick, with no tag or the tag [move] in any
    case, and the block holds a non-empty code without backtick, the result
    is that code, trimmed -- whatever follows the closing fence. *)
Theorem X18_extractCode_fenced (pre tag code post : string) :
  no_backtick pre = true ->
  move_tag tag ->
  no_backtick code = true ->
  code <> "" ->
  extractCode (pre ++ Fence.fence ++ tag
                   ++ String JS.LF (code ++ Fence.fence ++ post))%string
  = JS.trim code.
Proof.
  intros Hpre Htag Hcode Hne. unfold extractCode.
  rewrite (match_group_skip pre _ Hpre), match_group_fence.
  assert (E : Fence.match_here
                (Fence.fence ++ tag
                   ++ String JS.LF (code ++ Fence.fence ++ post))%string
              = Some code).
  { unfold Fence.match_here.
    change (JS.startsWith (Fence.fence ++ ?s)%string Fence.fence)
      with (JS.startsWith s "").
    assert (T : forall s, JS.startsWith s "" = true) by (intros []; reflexivity).
    rewrite T.
    change (Fence.drop 3 (Fence.fence ++ ?s)%string) with s.
    destruct Htag as [->|[Hl Ht]].
    - cbn [append].
      assert (Em : forall x, Fence.startsWith_i (String JS.LF x) "move" = false)
        by reflexivity.
      rewrite Em. unfold Fence.after_tag.
      rewrite Ascii.eqb_refl, (capture_code code post Hcode). reflexivity.
    - destruct tag as [|a [|b [|c [|d [|e t]]]]]; try discriminate Hl.
      cbn [append]. cbn [Fence.startsWith_i] in Ht |- *.
      rewrite !andb_true_iff in Ht. destruct Ht as (-> & -> & -> & -> & _).
      cbn [andb Fence.drop]. unfold Fence.after_tag at 1.
      rewrite Ascii.eqb_refl, (capture_code code post Hcode). reflexivity. }
  rewrite E. destruct code; [congruence|]. reflexivity.
Qed.

Lemma string_length_append (a b : string) :
  String.length (a ++ b)%string = String.length a + String.length b.
Proof. induction a as [|x a IH]; simpl; [reflexivity | rewrite IH; reflexivity]. Qed.

Lemma drop_append (n : nat) (a b : string) :
  n <= String.length a ->
  Fence.drop n (a ++ b)%string = (Fence.drop n a ++ b)%string.
Proof.
  revert a. induction n as [|n IH]; intros a H; [reflexivity|].
  destruct a as [|x a]; simpl in *; [lia|]. apply IH. lia.
Qed.

Lemma match_group_needs_two_fences (rest : string) :
  JS.includes rest Fence.fence = false ->
  Fence.match_group (Fence.fence ++ rest)%string = None.
Proof.
  intros Hn.
  destruct (Fence.match_group (Fence.fence ++ rest)%string) as [c|] eqn:E;
    [|reflexivity].
  destruct (match_group_spec _ c E) as (_ & pre & tag & post & _ & Eq).
  set (T := (tag ++ String JS.LF (c ++ Fence.fence ++ post))%string) in Eq.
  assert (Eq' : rest = (Fence.drop 3 (pre ++ Fence.fence) ++ T)%string).
  { rewrite <- drop_append by (rewrite string_length_append; simpl; lia).
    rewrite string_append_assoc, <- Eq. reflexivity. }
  assert (H : JS.includes rest Fence.fence = true).
  { apply includes_iff.
    exists (Fence.drop 3 (pre ++ Fence.fence) ++ tag ++ String JS.LF c)%string,
           post.
    rewrite Eq'. unfold T. rewrite !string_append_assoc. reflexivity. }
  congruence.
Qed.

(** X19.  Without a closed block the answer is returned whole.  When the
    answer holds no fence, or a single fence (after a text without backtick,
    and no fence after it: a block that was opened and never closed),
    [extractCode] returns the whole answer, trimmed -- the fence and its tag
    included. *)
Theorem X19_extractCode_whole (text : string) :
  (JS.includes text Fence.fence = false -> extractCode text = JS.trim text)
  /\ (forall pre rest,
        text = (pre ++ Fence.fence ++ rest)%string ->
        no_backtick pre = true ->
        JS.includes rest Fence.fence = false ->
        extractCode text = JS.trim text).
Proof.
  split.
  - intros Hn. unfold extractCode.
    destruct (Fence.match_group text) as [c|] eqn:E; [|reflexivity].
    destruct (match_group_spec _ c E) as (_ & pre & tag & post & _ & Eq).
    assert (H : JS.includes text Fence.fence = true); [|congruence].
    apply includes_iff. exists pre. eexists. exact Eq.
  - intros pre rest -> Hp Hn. unfold extractCode.
    rewrite (match_group_skip pre _ Hp), (match_group_needs_two_fences rest Hn).
    reflexivity.
Qed.

(** ** Instances *)

Lemma X1_finding_of_catalog_rule_witness :
  exists t p,
    In t [mint_rule] /\ Threat.pattern t = Some p
    /\ Finding.id mint_finding = Threat.id t
    /\ Finding.severity mint_finding = Threat.severity t
    /\ Finding.recommendation mint_finding = Threat.recommendation t
    /\ Finding.fix_ mint_finding = Threat.fix_ t
    /\ Finding.exploit_example mint_finding
       = JS.or_default (Threat.exploit_example t) "Unknown"
    /\ Finding.cve_reference mint_finding
       = JS.or_default (Threat.cve_reference t) "None"
    /\ Finding.exploit_example mint_finding <> ""
    /\ Finding.cve_reference mint_finding <> ""
    /\ Finding.missing_checks mint_finding <> []
    /\ (forall check, In check (Finding.missing_checks mint_finding) ->
                      In check (declared_checks p)).
Proof.
  apply (X1_finding_of_catalog_rule [mint_rule] commented_source mint_finding).
  vm_compute. left. reflexivity.
Defined.

Lemma X4_snippet_of_source_witness :
  JS.trim (Finding.snippet mint_finding) = Finding.snippet mint_finding
  /\ JS.includes commented_source (Finding.snippet mint_finding) = true
  /\ JS.startsWith (Finding.snippet mint_finding) "//" = false
  /\ (exists p, Threat.pattern mint_rule = Some p
                /\ Pattern.function_name p
                   = Some (Finding.function mint_finding))
  /\ JS.includes commented_source (Finding.function mint_finding) = true.
Proof.
  apply (X4_snippet_of_source mint_rule commented_source mint_finding).
  vm_compute. left. reflexivity.
Defined.

Lemma X5_window_evidence_witness :
  ~ In "signer_check"
       (line_missing (Pattern.mk (Some "mint") None (Some ["signer_check"]))
          (context [ "public fun mint(ctx: &mut TxContext) {";
                     "  let who = tx_context::sender(ctx);" ] 0)).
Proof.
  apply (X5_window_evidence
           (Pattern.mk (Some "mint") None (Some ["signer_check"]))
           [ "public fun mint(ctx: &mut TxContext) {";
             "  let who = tx_context::sender(ctx);" ]
           0 1 "  let who = tx_context::sender(ctx);"
           "signer_check" "tx_context::sender").
  - lia.
  - reflexivity.
  - simpl. left. reflexivity.
  - vm_compute. reflexivity.
Defined.

Lemma X8_threshold_ends_witness :
  (["flash_swap"; "get_price"] = [] ->
   activated "flash_swap(pool); get_price(pool)" ["flash_swap"; "get_price"]
   = true)
  /\ (Forall (fun call =>
                JS.includes "flash_swap(pool); get_price(pool)" call = true)
        ["flash_swap"; "get_price"] ->
      activated "flash_swap(pool); get_price(pool)" ["flash_swap"; "get_price"]
      = true)
  /\ (["flash_swap"; "get_price"] <> [] ->
      Forall (fun call =>
                JS.includes "flash_swap(pool); get_price(pool)" call = false)
        ["flash_swap"; "get_price"] ->
      activated "flash_swap(pool); get_price(pool)" ["flash_swap"; "get_price"]
      = false)
  /\ (List.length ["flash_swap"; "get_price"] <= 3 ->
      (activated "flash_swap(pool); get_price(pool)"
         ["flash_swap"; "get_price"] = true
       <-> Forall (fun call =>
                     JS.includes "flash_swap(pool); get_price(pool)" call = true)
             ["flash_swap"; "get_price"])).
Proof.
  apply (X8_threshold_ends "flash_swap(pool); get_price(pool)"
           ["flash_swap"; "get_price"]).
  vm_compute. reflexivity.
Defined.

Lemma X9_score_order_free_witness :
  criticalIssues (score [finding_of "critical"; finding_of "medium"])
  = criticalIssues (score [finding_of "medium"; finding_of "critical"])
  /\ highIssues (score [finding_of "critical"; finding_of "medium"])
     = highIssues (score [finding_of "medium"; finding_of "critical"])
  /\ mediumIssues (score [finding_of "critical"; finding_of "medium"])
     = mediumIssues (score [finding_of "medium"; finding_of "critical"])
  /\ securityScore (score [finding_of "critical"; finding_of "medium"])
     = securityScore (score [finding_of "medium"; finding_of "critical"])
  /\ risk_level (score [finding_of "critical"; finding_of "medium"])
     = risk_level (score [finding_of "medium"; finding_of "critical"])
  /\ deployment_ready (score [finding_of "critical"; finding_of "medium"])
     = deployment_ready (score [finding_of "medium"; finding_of "critical"]).
Proof.
  apply (X9_score_order_free [finding_of "critical"; finding_of "medium"]
           [finding_of "medium"; finding_of "critical"]).
  apply perm_swap.
Defined.

Lemma X14_by_severity_counts_witness :
  (forall sev,
     count_of (by_severity [finding_of "high"; finding_of "low";
                            finding_of "high"]) sev
     = count_severity sev [finding_of "high"; finding_of "low";
                           finding_of "high"])
  /\ count_of (by_severity [finding_of "high"; finding_of "low";
                            finding_of "high"]) "critical"
     = criticalIssues (score [finding_of "high"; finding_of "low";
                              finding_of "high"])
  /\ list_sum (map snd (by_severity [finding_of "high"; finding_of "low";
                                     finding_of "high"]))
     = List.length [finding_of "high"; finding_of "low"; finding_of "high"]
  /\ Forall (fun kn => 1 <= snd kn)
       (by_severity [finding_of "high"; finding_of "low"; finding_of "high"])
  /\ NoDup (map fst (by_severity [finding_of "high"; finding_of "low";
                                  finding_of "high"])).
Proof.
  apply (X14_by_severity_counts
           [finding_of "high"; finding_of "low"; finding_of "high"]).
  repeat (apply Forall_cons; [simpl; auto 6|]). apply Forall_nil.
Defined.

Lemma X18_extractCode_fenced_witness :
  extractCode ("Here is the module:" ++ Fence.fence ++ "Move"
                 ++ String JS.LF ("  module core::token {}  "
                                    ++ Fence.fence ++ " Enjoy."))%string
  = JS.trim "  module core::token {}  ".
Proof.
  apply (X18_extractCode_fenced "Here is the module:" "Move"
           "  module core::token {}  " " Enjoy.").
  - reflexivity.
  - right. split; reflexivity.
  - reflexivity.
  - discriminate.
Defined.

(** ** Detection when the evidence is nowhere *)

Lemma startsWith_before_LF (a b lit : string) :
  no_LF lit = true ->
  JS.startsWith (a ++ String JS.LF b)%string lit = true ->
  JS.startsWith a lit = true.
Proof.
  revert a. induction lit as [|c lit IH]; intros a Hl.
  - intros _. destruct a; reflexivity.
  - cbn [no_LF] in Hl. apply andb_true_iff in Hl. destruct Hl as [Hc Hl].
    apply negb_true_iff in Hc.
    destruct a as [|x a]; cbn [append JS.startsWith].
    + rewrite Hc. discriminate.
    + rewrite !andb_true_iff. intros [E H]. split; [exact E|].
      apply IH; assumption.
Qed.

Lemma includes_around_LF (a b lit : string) :
  no_LF lit = true ->
  JS.includes (a ++ String JS.LF b)%string lit = true ->
  JS.includes a lit = true \/ JS.includes b lit = true.
Proof.
  intros Hl. induction a as [|x a IH]; cbn [append].
  - rewrite includes_cons, orb_true_iff. intros [H|H]; [|right; exact H].
    left. apply (startsWith_before_LF "" b lit Hl) in H.
    destruct lit; [reflexivity | discriminate H].
  - rewrite includes_cons, orb_true_iff. intros [H|H].
    + left. rewrite includes_cons.
      rewrite (startsWith_before_LF (String x a) b lit Hl H). reflexivity.
    + destruct (IH H) as [H'|H']; [left | right; exact H'].
      apply includes_cons_r, H'.
Qed.

Lemma includes_join_lines (ws : list string) (lit : string) :
  no_LF lit = true -> lit <> "" ->
  JS.includes (JS.join (String JS.LF "") ws) lit = true ->
  exists w, In w ws /\ JS.includes w lit = true.
Proof.
  intros Hl Hne. induction ws as [|x ws IH].
  - simpl. destruct lit; [congruence | discriminate].
  - destruct ws as [|y ws].
    + intros H. exists x. split; [left; reflexivity | exact H].
    + change (JS.join (String JS.LF "") (x :: y :: ws))
        with (x ++ String JS.LF (JS.join (String JS.LF "") (y :: ws)))%string.
      intros H. destruct (includes_around_LF _ _ _ Hl H) as [H'|H'].
      * exists x. split; [left; reflexivity | exact H'].
      * destruct (IH H') as (w & Hw & Hi). exists w. split; [right|]; assumption.
Qed.

Lemma evidence_literals (mc lit : string) :
  In lit (evidence mc) -> no_LF lit = true /\ lit <> "".
Proof.
  unfold evidence.
  destruct (String.eqb mc "signer_check");
    [intros [<-|[<-|[]]]; split; try reflexivity; discriminate|].
  destruct (String.eqb mc "max_supply_check");
    [intros [<-|[<-|[]]]; split; try reflexivity; discriminate|].
  destruct (String.eqb mc "reentrancy_guard");
    [intros [<-|[<-|[]]]; split; try reflexivity; discriminate|].
  destruct (String.eqb mc "type_verification");
    [intros [<-|[<-|[]]]; split; try reflexivity; discriminate|].
  intros [].
Qed.

(** A literal found in a context window is found in the source. *)
Lemma context_in_source (source : string) (idx : nat) (mc lit : string) :
  In lit (evidence mc) ->
  JS.includes (context (source_lines source) idx) lit = true ->
  JS.includes source lit = true.
Proof.
  intros Hlit H. destruct (evidence_literals mc lit Hlit) as [Hl Hne].
  unfold context in H. rewrite window_slice in H.
  destruct (includes_join_lines _ lit Hl Hne H) as (w & Hw & Hi).
  apply in_firstn_skipn in Hw.
  destruct (source_lines_kept source w Hw) as [Hs _].
  apply includes_trans with (mid := w); [apply line_in_source, Hs | exact Hi].
Qed.

(** X21.  Detection is guaranteed when the evidence is nowhere.  For a rule
    with a non-empty function name that declares one of the four check
    kinds: when no literal of that kind occurs anywhere in the source, every
    scanned line that contains the function name -- be it inside a longer
    word -- yields a finding at its position, reporting that check. *)
Theorem X21_detection_guaranteed (t : Threat.t) (p : Pattern.t)
    (fname source ln check : string) (idx : nat) :
  Threat.pattern t = Some p ->
  Pattern.function_name p = Some fname ->
  fname <> "" ->
  In check (declared_checks p) ->
  In check line_check_kinds ->
  (forall lit, In lit (evidence check) -> JS.includes source lit = false) ->
  nth_error (source_lines source) idx = Some ln ->
  JS.includes ln fname = true ->
  exists f,
    In f (scan [t] source)
    /\ Finding.line f = LineNumber (idx + 1)
    /\ Finding.snippet f = JS.trim ln
    /\ In check (Finding.missing_checks f).
Proof.
  intros Hp Hf Hne Hd Hk Hnone Hn Hi.
  assert (Hm : In check (line_missing p (context (source_lines source) idx))).
  { apply in_line_missing. split; [exact Hd|]. split; [exact Hk|].
    intros lit Hlit.
    destruct (JS.includes (context (source_lines source) idx) lit) eqn:E;
      [|reflexivity].
    specialize (Hnone lit Hlit).
    rewrite (context_in_source source idx check lit Hlit E) in Hnone.
    discriminate. }
  exists (Finding.mk (Threat.id t) (Threat.severity t) (LineNumber (idx + 1))
            fname (JS.trim ln)
            (line_missing p (context (source_lines source) idx))
            (Threat.recommendation t) (Threat.fix_ t)
            (JS.or_default (Threat.exploit_example t) "Unknown")
            (JS.or_default (Threat.cve_reference t) "None")).
  split; [|split; [|split]]; cycle 1.
  - reflexivity.
  - reflexivity.
  - exact Hm.
  - apply in_scan. exists t. split; [left; reflexivity|]. left.
    apply in_function_findings. exists p, fname, idx, ln.
    repeat split; try assumption.
    + destruct fname; [congruence | reflexivity].
    + intros E. rewrite E in Hm. destruct Hm.
Qed.

Lemma X21_detection_guaranteed_witness :
  exists f,
    In f (scan [mint_rule] mint_source_multiline)
    /\ Finding.line f = LineNumber (2 + 1)
    /\ Finding.snippet f = JS.trim "          let coin = coin::mint(amount);"
    /\ In "signer_check" (Finding.missing_checks f).
Proof.
  apply (X21_detection_guaranteed mint_rule
           (Pattern.mk (Some "mint") None (Some ["signer_check"]))
           "mint" mint_source_multiline
           "          let coin = coin::mint(amount);" "signer_check" 2).
  - reflexivity.
  - reflexivity.
  - discriminate.
  - simpl. left. reflexivity.
  - simpl. left. reflexivity.
  - intros lit [<-|[<-|[]]]; vm_compute; reflexivity.
  - vm_compute. reflexivity.
  - vm_compute. reflexivity.
Defined.
